(** * Soccer dashboard: peer comparison and position routing

    A shallow embedding of the two functions of [main.py] that carry
    decision logic,

    - [player_radar_chart] (lines 58-104): the min-max normalised
      comparison of one player with the players of the same position;
    - [predict_player_performance] (lines 106-134): the routing of a
      record to the scaler and classifier of its position;

    followed by the properties the specification states about them.

    Conventions of the model.

    - Numbers are exact rationals ([Q]): the frame functions describe the
      code on data for which the arithmetic of lines 65-71 is exact.  What
      the arithmetic of pandas yields beyond the finite numbers (the result
      of a division by zero, of a reduction over no rows) is kept, as
      [NaN], [PInf] and [NInf].  The code itself computes in int64 and in
      binary64; where rounding changes what a statement says, the statement
      is made so that it holds for both, and the same lines are given once
      more in binary64 ([f64_normalised]) to show where rounding leads.
    - Strings are byte strings.  [lower] is [str.lower] on ASCII strings;
      beyond ASCII Python lowercases more characters, so a statement about
      Positions that [lower] does not send to one of the four positions
      takes the Position to be ASCII ([is_ascii]).
    - A Python exception that leaves a function is the outcome [Raise];
      a returned value is the outcome [Ok].
    - What a function does to the world around it (the files it loads,
      the methods of loaded objects it calls, the messages it posts to
      the page) is threaded through a state. *)

From Stdlib Require Import Ascii String QArith Qminmax Lqa PrimFloat Uint63.
From stdpp Require Import base option list strings gmap.

Local Open Scope string_scope.

(** ** Outcomes and the state monad *)

Inductive exn : Type :=
| KeyError (key : string)               (* dict lookup of an absent key *)
| NotInIndex (missing : list string)    (* frame[cols], some labels absent *)
| NoneInColumns (request : list string) (* frame[cols], every label absent *)
| IndexError                            (* position 0 of an empty sequence *)
| AttributeError (attr : string)        (* method absent from an object *)
| ValueError (msg : string)             (* raised inside a loaded object *)
| LoadFailure (path : string).          (* joblib.load could not load *)

Inductive res (A : Type) : Type :=
| Ok (a : A)
| Raise (e : exn).
Arguments Ok {A} a.
Arguments Raise {A} e.

Definition M (S A : Type) : Type := S → res A * S.

#[global] Instance M_ret {S} : MRet (M S) := λ A a s, (Ok a, s).

#[global] Instance M_bind {S} : MBind (M S) := λ A B f m s,
  match m s with
  | (Ok a, s') => f a s'
  | (Raise e, s') => (Raise e, s')
  end.

Definition raise {S A} (e : exn) : M S A := λ s, (Raise e, s).

Definition lift {S A} (r : res A) : M S A := λ s, (r, s).

(** The comprehension [[f x for x in l]]: left to right, the first
    exception ends it. *)
Fixpoint for_each {S A B} (f : A → M S B) (l : list A) : M S (list B) :=
  match l with
  | [] => mret []
  | x :: l' => y ← f x; ys ← for_each f l'; mret (y :: ys)
  end.

(** ** Python values and strings *)

Inductive value : Type :=
| VNum (q : Q)
| VStr (s : string).

Definition lower_ascii (c : ascii) : ascii :=
  let n := nat_of_ascii c in
  if (65 <=? n)%nat && (n <=? 90)%nat then ascii_of_nat (n + 32) else c.

Fixpoint lower (s : string) : string :=
  match s with
  | EmptyString => EmptyString
  | String c s' => String (lower_ascii c) (lower s')
  end.

(** The strings on which [lower] is Python's [str.lower]. *)
Fixpoint is_ascii (s : string) : bool :=
  match s with
  | EmptyString => true
  | String c s' => (nat_of_ascii c <? 128)%nat && is_ascii s'
  end.

(** [d[key]] on a dict. *)
Definition getitem {S A} (d : gmap string A) (key : string) : M S A :=
  match d !! key with
  | Some v => mret v
  | None => raise (KeyError key)
  end.

(** [v.lower()]: a method of strings only. *)
Definition str_lower {S} (v : value) : M S string :=
  match v with
  | VStr s => mret (lower s)
  | VNum _ => raise (AttributeError "lower")
  end.

(** [seq[0]]. *)
Definition first {S A} (l : list A) : M S A :=
  match l with
  | x :: _ => mret x
  | [] => raise IndexError
  end.

(** ** The model store and [predict_player_performance] *)

(** An object that [joblib.load] returns.  The code calls [transform] on
    the object loaded as a scaler and [predict] on the one loaded as a
    model; what these do is the object's own business, and they may
    raise. *)
Record artifact : Type := {
  transform : list (list value) → res (list (list Q));
  predict : list (list Q) → res (list string)
}.

(** The files under [model/]: a path with no loadable file gives [None]. *)
Definition store : Type := string → option artifact.

Inductive event : Type :=
| EvLoad (path : string)
| EvTransform (position : string) (X : list (list value))
| EvPredict (position : string) (X_scaled : list (list Q)).

Definition trace : Type := list event.

Definition log (e : event) : M trace unit := λ t, (Ok tt, (t ++ [e])%list).

Definition joblib_load (st : store) (path : string) : M trace artifact :=
  _ ← log (EvLoad path);
  match st path with
  | Some a => mret a
  | None => raise (LoadFailure path)
  end.

Definition call_transform (position : string) (a : artifact)
    (X : list (list value)) : M trace (list (list Q)) :=
  _ ← log (EvTransform position X); lift (transform a X).

Definition call_predict (position : string) (a : artifact)
    (X_scaled : list (list Q)) : M trace (list string) :=
  _ ← log (EvPredict position X_scaled); lift (predict a X_scaled).

Definition positions : list string :=
  ["defender"; "midfielder"; "striker"; "goalkeeper"].

Definition model_path (position : string) : string :=
  "model/" ++ position ++ "_model.joblib".

Definition scaler_path (position : string) : string :=
  "model/" ++ position ++ "_scaler.joblib".

Definition features : gmap string (list string) :=
  <["defender" := ["Age"; "Appearances"; "Distance / 90 minutes"; "Interception"]]>
  (<["midfielder" := ["Appearances"; "Key Passes"; "Pass Attempt / 90 minutes";
                      "Pass Completed / 90 minutes"; "Tackle Attempt"; "Tackle Won"]]>
  (<["striker" := ["Appearances"; "Goals"; "Interception"; "Key Passes";
                   "Shots on Target"]]>
  (<["goalkeeper" := ["Age"; "Appearances"; "Conceded"; "Shutouts"]]> ∅))).

(** The loop of lines 111-116, over the positions still to load. *)
Fixpoint load_artifacts (st : store) (ps : list string)
    (models scalers : gmap string artifact)
  : M trace (gmap string artifact * gmap string artifact) :=
  match ps with
  | [] => mret (models, scalers)
  | position :: ps' =>
      m ← joblib_load st (model_path position);
      s ← joblib_load st (scaler_path position);
      load_artifacts st ps' (<[position := m]> models) (<[position := s]> scalers)
  end.

Definition predict_player_performance (st : store)
    (player_data : gmap string value) : M trace string :=
  '(models, scalers) ← load_artifacts st positions ∅ ∅;
  p ← getitem player_data "Position";
  position ← str_lower p;
  if decide (position ∈ positions) then
    fs ← getitem features position;
    X ← for_each (getitem player_data) fs;
    scaler ← getitem scalers position;
    X_scaled ← call_transform position scaler [X];
    model ← getitem models position;
    prediction ← call_predict position model X_scaled;
    first prediction
  else
    mret "Invalid position".

(** The eight files, in the order in which the loop asks for them. *)
Definition artifact_paths : list string :=
  concat (map (λ position, [model_path position; scaler_path position]) positions).

Definition loads_ok (st : store) : Prop :=
  ∀ path, path ∈ artifact_paths → is_Some (st path).


(** ** Numbers of a frame *)

(** What pandas arithmetic can yield: a finite number, or one of the three
    values that a division by zero and a reduction over no rows bring in. *)
Inductive xnum : Type :=
| Fin (q : Q)
| NaN
| PInf
| NInf.

Definition is_finite (x : xnum) : bool :=
  match x with Fin _ => true | _ => false end.

(** [x - y], element of a Series subtraction. *)
Definition xsub (x y : xnum) : xnum :=
  match x, y with
  | NaN, _ | _, NaN => NaN
  | Fin a, Fin b => Fin (a - b)
  | PInf, PInf | NInf, NInf => NaN
  | PInf, _ | _, NInf => PInf
  | NInf, _ | _, PInf => NInf
  end.

(** [x / y], element of a Series division: no exception on a zero divisor,
    [0/0] is NaN and [a/0] is infinite with the sign of [a]. *)
Definition xdiv (x y : xnum) : xnum :=
  match x, y with
  | NaN, _ | _, NaN => NaN
  | Fin a, Fin b =>
      if Qeq_bool b 0 then
        if Qeq_bool a 0 then NaN else if Qle_bool 0 a then PInf else NInf
      else Fin (a / b)
  | Fin _, (PInf | NInf) => Fin 0
  | (PInf | NInf), (PInf | NInf) => NaN
  | PInf, Fin b => if Qle_bool 0 b then PInf else NInf
  | NInf, Fin b => if Qle_bool 0 b then NInf else PInf
  end.

Definition Qsum (l : list Q) : Q := foldr Qplus 0%Q l.

(** Reductions of one column; over no rows they are NaN. *)
Definition series_min (l : list Q) : xnum :=
  match l with
  | [] => NaN
  | x :: l' => Fin (foldl Qmin x l')
  end.

Definition series_max (l : list Q) : xnum :=
  match l with
  | [] => NaN
  | x :: l' => Fin (foldl Qmax x l')
  end.

Definition series_mean (l : list Q) : xnum :=
  match l with
  | [] => NaN
  | _ => Fin (Qsum l / inject_Z (Z.of_nat (length l)))
  end.

(** ** Frames *)

(** A row of the dataset: the two text cells the comparison reads, and the
    numeric cells by column label.  A row of a frame has a cell for every
    column of the frame; [num] is never read at another label. *)
Record PlayerRecord : Type := {
  Name : string;
  Position : string;
  num : string → Q
}.

(** A frame: the labels of its numeric columns, and its rows in order. *)
Record DataFrame : Type := {
  columns : list string;
  rows : list PlayerRecord
}.

(** [df[mask]] for a boolean mask computed row by row. *)
Definition mask (df : DataFrame) (P : PlayerRecord → Prop)
    `{!∀ r, Decision (P r)} : DataFrame :=
  {| columns := columns df; rows := filter P (rows df) |}.

(** Each label once, in order of first occurrence. *)
Fixpoint unique (l : list string) : list string :=
  match l with
  | [] => []
  | x :: l' => x :: filter (λ y, y ≠ x) (unique l')
  end.

(** [df[cols]]: the frame of these columns.  When labels are absent pandas
    raises KeyError: naming the whole request when none of its labels is a
    column, and otherwise the absent labels, each once.  [columns] holds the
    numeric columns; the text columns of the real frame are no labels of the
    model, and a request for one of them is outside it. *)
Definition getcols {S} (df : DataFrame) (cols : list string) : M S DataFrame :=
  match filter (λ c, c ∉ columns df) cols with
  | [] => mret {| columns := cols; rows := rows df |}
  | missing =>
      if decide (length missing = length cols) then raise (NoneInColumns cols)
      else raise (NotInIndex (unique missing))
  end.

Definition column (df : DataFrame) (c : string) : list Q :=
  map (λ r, num r c) (rows df).

(** [df.mean()], [df.min()], [df.max()]: one entry per column. *)
Definition frame_mean (df : DataFrame) : list xnum :=
  map (λ c, series_mean (column df c)) (columns df).

Definition frame_min (df : DataFrame) : list xnum :=
  map (λ c, series_min (column df c)) (columns df).

Definition frame_max (df : DataFrame) : list xnum :=
  map (λ c, series_max (column df c)) (columns df).

(** [df.iloc[0]]: the first row as a Series over the columns. *)
Definition iloc0 {S} (df : DataFrame) : M S (list xnum) :=
  r ← first (rows df); mret (map (λ c, Fin (num r c)) (columns df)).

(** Series [a - b] and [a / b] over the same index. *)
Definition series_sub (a b : list xnum) : list xnum := zip_with xsub a b.
Definition series_div (a b : list xnum) : list xnum := zip_with xdiv a b.

(** ** The page and [player_radar_chart] *)

Record Scatterpolar : Type := {
  r : list xnum;
  theta : list string;
  fill : string;
  name : string;
  line_color : string
}.

Record Figure : Type := {
  data : list Scatterpolar;
  radialaxis_visible : bool;
  radialaxis_range : Q * Q;
  showlegend : bool;
  title : string;
  title_font_size : Z;
  height : Z;
  width : Z
}.

(** The session: the dataset loaded at start-up and what has been posted
    to the page. *)
Record Session : Type := {
  dataset : DataFrame;
  page : list string
}.

Definition st_error (msg : string) : M Session unit := λ w,
  (Ok tt, {| dataset := dataset w; page := (page w ++ [msg])%list |}).

Definition player_radar_chart (df : DataFrame) (player_name : string)
    (features : list string) : M Session (option (Figure * DataFrame)) :=
  let player_data := mask df (λ x, Name x = player_name) in
  if decide (rows player_data = []) then
    _ ← st_error ("Player '" ++ player_name ++ "' not found in the dataset.");
    mret None
  else
    position ← first (map Position (rows player_data));
    let all_players := mask df (λ x, Position x = position) in
    sel ← getcols all_players features;
    let avg_values := frame_mean sel in
    psel ← getcols player_data features;
    player_values ← iloc0 psel;
    sel ← getcols all_players features;
    let min_values := frame_min sel in
    sel ← getcols all_players features;
    let max_values := frame_max sel in
    let normalized_avg :=
      series_div (series_sub avg_values min_values) (series_sub max_values min_values) in
    let normalized_player :=
      series_div (series_sub player_values min_values) (series_sub max_values min_values) in
    let fig :=
      {| data :=
           [ {| r := normalized_avg; theta := features; fill := "toself";
                name := "Average Player"; line_color := "blue" |};
             {| r := normalized_player; theta := features; fill := "toself";
                name := player_name; line_color := "red" |} ];
         radialaxis_visible := true;
         radialaxis_range := (0%Q, 1%Q);
         showlegend := true;
         title := "Normalized Player Comparison: Average vs " ++ player_name;
         title_font_size := 20;
         height := 600;
         width := 800 |} in
    mret (Some (fig, player_data)).

(** ** Lines 65-71 on one float64 column *)

(** pandas reduces a float64 column in binary64; a column of fewer than
    eight cells is summed from left to right, and the definitions below are
    meant for such columns. *)
Definition f64_sum (l : list float) : float := foldl PrimFloat.add 0%float l.

Definition f64_mean (l : list float) : float :=
  PrimFloat.div (f64_sum l) (PrimFloat.of_uint63 (Uint63.of_Z (Z.of_nat (length l)))).

Definition f64_min (l : list float) : float :=
  match l with
  | [] => PrimFloat.nan
  | x :: l' => foldl (λ a b, if PrimFloat.ltb b a then b else a) x l'
  end.

Definition f64_max (l : list float) : float :=
  match l with
  | [] => PrimFloat.nan
  | x :: l' => foldl (λ a b, if PrimFloat.ltb a b then b else a) x l'
  end.

(** [(value - min) / (max - min)] for one column of the peer group. *)
Definition f64_normalised (value : float) (column : list float) : float :=
  PrimFloat.div (PrimFloat.sub value (f64_min column))
                (PrimFloat.sub (f64_max column) (f64_min column)).

(** ** Sample stores, records and datasets *)

(** A loadable object: the scaler side keeps the numbers, the model side
    answers one fixed label per row set. *)
Definition sample_artifact (label : string) : artifact :=
  {| transform := λ X,
       Ok (map (map (λ v, match v with VNum q => q | VStr _ => 0%Q end)) X);
     predict := λ _, Ok [label] |}.

(** All eight files are present. *)
Definition store_all : store := λ path,
  if decide (path ∈ artifact_paths) then Some (sample_artifact "Good") else None.

(** The goalkeeper scaler file is absent. *)
Definition store_no_gk_scaler : store := λ path,
  if decide (path = "model/goalkeeper_scaler.joblib") then None else store_all path.

(** The record that the Predict page builds (lines 215-230). *)
Definition form_record (position : string) : gmap string value :=
  list_to_map
    [("Position", VStr position); ("Age", VNum 27); ("Appearances", VNum 30);
     ("Goals", VNum 4); ("Interception", VNum 11); ("Key Passes", VNum 25);
     ("Shots on Target", VNum 9); ("Distance / 90 minutes", VNum (21 # 2));
     ("Pass Attempt / 90 minutes", VNum 48); ("Pass Completed / 90 minutes", VNum 40);
     ("Tackle Attempt", VNum 31); ("Tackle Won", VNum 17); ("Conceded", VNum 22);
     ("Shutouts", VNum 6)].

Definition wingback : gmap string value := form_record "Wingback".
Definition sweeper : gmap string value := form_record "Sweeper".

Definition midfielder_no_tackle_won : gmap string value :=
  delete "Tackle Won" (form_record "Midfielder").

Definition keeper : gmap string value := form_record "Goalkeeper".

(** The same keeper, written in capitals and with other outfield numbers. *)
Definition keeper' : gmap string value :=
  <["Goals" := VNum 1]> (<["Key Passes" := VNum 0]> (form_record "GOALKEEPER")).

(** A row given by its text cells and its numeric cells. *)
Definition row (player position : string) (cells : list (string * Q)) : PlayerRecord :=
  {| Name := player;
     Position := position;
     num := λ c, default 0%Q ((list_to_map cells : gmap string Q) !! c) |}.

Definition stat_columns : list string := ["Interception"; "Tackle Won"].

(** Two defenders, 10 and 20 tackles won, and one goalkeeper. *)
Definition squad : DataFrame :=
  {| columns := stat_columns;
     rows := [ row "Ana" "Defender" [("Interception", 4%Q); ("Tackle Won", 10%Q)];
               row "Bea" "Defender" [("Interception", 4%Q); ("Tackle Won", 20%Q)];
               row "Cai" "Goalkeeper" [("Interception", 1%Q); ("Tackle Won", 2%Q)] ] |}.

(** Two players called Sam: a midfielder first, a defender later, and a
    player whose position differs from a midfielder's by its casing only. *)
Definition ana : PlayerRecord :=
  row "Ana" "Defender" [("Interception", 4%Q); ("Tackle Won", 10%Q)].
Definition sam_midfielder : PlayerRecord :=
  row "Sam" "Midfielder" [("Interception", 6%Q); ("Tackle Won", 8%Q)].
Definition bea : PlayerRecord :=
  row "Bea" "Midfielder" [("Interception", 2%Q); ("Tackle Won", 16%Q)].
Definition sam_defender : PlayerRecord :=
  row "Sam" "Defender" [("Interception", 9%Q); ("Tackle Won", 20%Q)].
Definition dov : PlayerRecord :=
  row "Dov" "midfielder" [("Interception", 3%Q); ("Tackle Won", 40%Q)].

Definition namesakes : DataFrame :=
  {| columns := stat_columns;
     rows := [ana; sam_midfielder; bea; sam_defender; dov] |}.

Definition fresh_session (df : DataFrame) : Session :=
  {| dataset := df; page := [] |}.

(** ** What the two pages hand to the functions *)

(** The Player Analysis page offers the names of the dataset, each once
    (line 141). *)
Definition name_options (df : DataFrame) : list string :=
  unique (map Name (rows df)).

(** The Predict page offers these positions (line 191). *)
Definition position_options : list string :=
  ["Striker"; "Midfielder"; "Defender"; "Goalkeeper"].

(** The inputs of the Predict page (lines 189-212). *)
Module Form.
Record inputs : Type := {
  name : string;
  age : Q;
  position : string;
  appearances : Q;
  goals : Q;
  assist : Q;
  club : string;
  nationality : string;
  distance_90 : Q;
  interception : Q;
  key_passes : Q;
  pass_attempt_90 : Q;
  pass_completed_90 : Q;
  tackle_attempt : Q;
  tackle_won : Q;
  shots_on_target : Q;
  conceded : Q;
  shutouts : Q
}.
End Form.

(** The dict that the page builds when the button is pressed
    (lines 215-230). *)
Definition form_player_data (f : Form.inputs) : gmap string value :=
  list_to_map
    [("Position", VStr (Form.position f));
     ("Age", VNum (Form.age f));
     ("Appearances", VNum (Form.appearances f));
     ("Goals", VNum (Form.goals f));
     ("Interception", VNum (Form.interception f));
     ("Key Passes", VNum (Form.key_passes f));
     ("Shots on Target", VNum (Form.shots_on_target f));
     ("Distance / 90 minutes", VNum (Form.distance_90 f));
     ("Pass Attempt / 90 minutes", VNum (Form.pass_attempt_90 f));
     ("Pass Completed / 90 minutes", VNum (Form.pass_completed_90 f));
     ("Tackle Attempt", VNum (Form.tackle_attempt f));
     ("Tackle Won", VNum (Form.tackle_won f));
     ("Conceded", VNum (Form.conceded f));
     ("Shutouts", VNum (Form.shutouts f))].

(** A filled-in form. *)
Definition striker_form : Form.inputs :=
  {| Form.name := "Kim"; Form.age := 24; Form.position := "Striker";
     Form.appearances := 31; Form.goals := 17; Form.assist := 5;
     Form.club := "Rovers"; Form.nationality := "Chile";
     Form.distance_90 := 19 # 2; Form.interception := 3; Form.key_passes := 22;
     Form.pass_attempt_90 := 25; Form.pass_completed_90 := 18;
     Form.tackle_attempt := 6; Form.tackle_won := 2; Form.shots_on_target := 40;
     Form.conceded := 0; Form.shutouts := 0 |}.

(** A store whose goalkeeper files differ from [store_all]'s. *)
Definition store_other_gk : store := λ path,
  if decide (path = "model/goalkeeper_model.joblib") then Some (sample_artifact "Poor")
  else store_all path.

(** A scaler that refuses its input. *)
Definition refusing_artifact : artifact :=
  {| transform := λ _, Raise (ValueError "bad input");
     predict := λ _, Ok ["Good"] |}.

Definition store_refusing_striker : store := λ path,
  if decide (path = "model/striker_scaler.joblib") then Some refusing_artifact
  else store_all path.
(** ** Facts about the monad and the loading loop *)

Lemma getitem_eq {S A} (d : gmap string A) (key : string) (s : S) :
  getitem d key s
  = match d !! key with
    | Some v => (Ok v, s)
    | None => (Raise (KeyError key), s)
    end.
Proof. unfold getitem. by destruct (d !! key). Qed.

Ltac munfold :=
  repeat progress
    (unfold mbind, M_bind, mret, M_ret, raise, lift, log, str_lower,
       first, joblib_load, call_transform, call_predict);
  repeat progress (cbv beta iota; rewrite ?getitem_eq).

Lemma load_artifacts_ok (st : store) (ps : list string) :
  ∀ (models scalers : gmap string artifact) (t : trace),
    Forall (λ p, is_Some (st (model_path p)) ∧ is_Some (st (scaler_path p))) ps →
    ∃ ms ss,
      load_artifacts st ps models scalers t
      = (Ok (ms, ss),
         (t ++ map EvLoad (concat (map (λ p, [model_path p; scaler_path p]) ps)))%list)
      ∧ (∀ p, p ∈ ps → ms !! p = st (model_path p) ∧ ss !! p = st (scaler_path p))
      ∧ (∀ p, p ∉ ps → ms !! p = models !! p ∧ ss !! p = scalers !! p).
Proof.
  induction ps as [|p ps IH]; intros models scalers t Hall.
  - exists models, scalers. simpl. rewrite app_nil_r.
    split; [done|]. split; [|done]. intros p Hp. by apply elem_of_nil in Hp.
  - apply Forall_cons in Hall as [[[m Hm] [s Hs]] Hall].
    destruct (IH (<[p:=m]> models) (<[p:=s]> scalers)
                ((t ++ [EvLoad (model_path p)]) ++ [EvLoad (scaler_path p)])%list Hall)
      as (ms & ss & Heq & Hin & Hout).
    exists ms, ss. split; [|split].
    + simpl. munfold. rewrite Hm, Hs. rewrite Heq. f_equal.
      rewrite <- !app_assoc. done.
    + intros q Hq. destruct (decide (q ∈ ps)) as [Hqps|Hqps]; [by apply Hin|].
      apply elem_of_cons in Hq as [->|Hq]; [|done].
      destruct (Hout p Hqps) as [-> ->].
      by rewrite !lookup_insert_eq, Hm, Hs.
    + intros q Hq. apply not_elem_of_cons in Hq as [Hne Hq].
      destruct (Hout q Hq) as [-> ->].
      by rewrite !lookup_insert_ne.
Qed.

Lemma load_artifacts_raise (st : store) (ps : list string) :
  ∀ (models scalers : gmap string artifact) (t : trace),
    Exists (λ p, st (model_path p) = None ∨ st (scaler_path p) = None) ps →
    ∃ q k,
      load_artifacts st ps models scalers t
      = (Raise (LoadFailure q),
         (t ++ map EvLoad
                 (take (S k) (concat (map (λ p, [model_path p; scaler_path p]) ps))))%list)
      ∧ concat (map (λ p, [model_path p; scaler_path p]) ps) !! k = Some q
      ∧ st q = None.
Proof.
  induction ps as [|p ps IH]; intros models scalers t Hex.
  - by apply Exists_nil in Hex.
  - simpl. munfold.
    destruct (st (model_path p)) as [m|] eqn:Hm.
    + destruct (st (scaler_path p)) as [s|] eqn:Hs.
      * apply Exists_cons in Hex as [[Hx|Hx]|Hex]; [congruence|congruence|].
        destruct (IH (<[p:=m]> models) (<[p:=s]> scalers)
                    ((t ++ [EvLoad (model_path p)]) ++ [EvLoad (scaler_path p)])%list Hex)
          as (q & k & Heq & Hk & Hq).
        exists q, (S (S k)). rewrite Heq. split; [|done].
        f_equal. rewrite <- !app_assoc. done.
      * exists (scaler_path p), 1%nat. split; [|done].
        f_equal. rewrite <- !app_assoc. simpl. by rewrite ?take_0.
    + exists (model_path p), 0%nat. split; [|done]. simpl. by rewrite ?take_0.
Qed.

Lemma loads_ok_Forall (st : store) :
  loads_ok st →
  Forall (λ p, is_Some (st (model_path p)) ∧ is_Some (st (scaler_path p))) positions.
Proof.
  intros H. unfold loads_ok, artifact_paths in H.
  repeat (apply Forall_cons; split; [split; apply H; set_solver|]).
  apply Forall_nil. done.
Qed.

Lemma not_loads_ok_Exists (st : store) (path : string) :
  path ∈ artifact_paths → st path = None →
  Exists (λ p, st (model_path p) = None ∨ st (scaler_path p) = None) positions.
Proof.
  intros Hin Hnone. apply list_elem_of_In in Hin.
  unfold artifact_paths, positions in *. simpl in Hin.
  repeat (destruct Hin as [<-|Hin];
          [repeat first [ apply Exists_cons_hd; (left; exact Hnone) || (right; exact Hnone)
                        | apply Exists_cons_tl ] |]).
  destruct Hin.
Qed.

Lemma artifact_paths_eq :
  artifact_paths =
  ["model/defender_model.joblib"; "model/defender_scaler.joblib";
   "model/midfielder_model.joblib"; "model/midfielder_scaler.joblib";
   "model/striker_model.joblib"; "model/striker_scaler.joblib";
   "model/goalkeeper_model.joblib"; "model/goalkeeper_scaler.joblib"].
Proof. reflexivity. Qed.

(** Reading a comprehension of dict lookups changes no state. *)
Lemma for_each_getitem_state {S} (d : gmap string value) (fs : list string) (s : S) :
  (for_each (getitem d) fs s).2 = s.
Proof.
  revert s. induction fs as [|f fs IH]; intros s; [done|].
  simpl. munfold. destruct (d !! f); [|done].
  specialize (IH s). destruct (for_each (getitem d) fs s) as [[ys|e] s']; simpl in *; by subst.
Qed.

Lemma for_each_getitem_ok {S} (d : gmap string value) (fs : list string)
    (vs : list value) (s : S) :
  Forall2 (λ f v, d !! f = Some v) fs vs →
  for_each (getitem d) fs s = (Ok vs, s).
Proof.
  induction 1 as [|f v fs vs Hf _ IH]; [done|].
  simpl. munfold. by rewrite Hf, IH.
Qed.

Lemma for_each_getitem_missing {S} (d : gmap string value)
    (pre post : list string) (name : string) (s : S) :
  Forall (λ f, is_Some (d !! f)) pre → d !! name = None →
  for_each (getitem d) (pre ++ name :: post) s = (Raise (KeyError name), s).
Proof.
  intros Hpre Hname. induction Hpre as [|f pre [v Hf] _ IH].
  - simpl. munfold. by rewrite Hname.
  - simpl. munfold. by rewrite Hf, IH.
Qed.

(** What a failed load leaves behind: the outcome is that failure, whatever
    the record, and the trace holds load attempts only. *)
Lemma predict_load_failure (st : store) (player_data : gmap string value)
    (path : string) :
  path ∈ artifact_paths → st path = None →
  ∃ q k,
    predict_player_performance st player_data []
    = (Raise (LoadFailure q), map EvLoad (take (S k) artifact_paths))
    ∧ artifact_paths !! k = Some q ∧ st q = None.
Proof.
  intros Hin Hnone.
  destruct (load_artifacts_raise st positions ∅ ∅ []
              (not_loads_ok_Exists st path Hin Hnone)) as (q & k & Heq & Hk & Hq).
  exists q, k. split; [|done].
  unfold predict_player_performance. unfold mbind at 1, M_bind at 1.
  by rewrite Heq.
Qed.

(** The state in which validation starts when the eight loads succeed. *)
Ltac after_loads st Hok ms ss Hin :=
  let Heq := fresh "Heq" in
  destruct (load_artifacts_ok st positions ∅ ∅ [] (loads_ok_Forall st Hok))
    as (ms & ss & Heq & Hin & _);
  unfold predict_player_performance; unfold mbind at 1, M_bind at 1;
  rewrite Heq; clear Heq; change ([] ++ ?l)%list with l;
  fold artifact_paths.

Lemma predict_trace_shape (st : store) (player_data : gmap string value) :
  loads_ok st →
  ∃ rest,
    (predict_player_performance st player_data []).2
    = (map EvLoad artifact_paths ++ rest)%list
    ∧ Forall (λ e, ∀ path, e ≠ EvLoad path) rest.
Proof.
  intros Hok. after_loads st Hok ms ss Hin.
  generalize (map EvLoad artifact_paths) as t0. intros t0.
  munfold.
  destruct (player_data !! "Position") as [[q|s]|]; munfold;
    try (exists []; rewrite app_nil_r; by split).
  destruct (decide (lower s ∈ positions)) as [Hpos|Hpos]; munfold;
    [|exists []; rewrite app_nil_r; by split].
  destruct (features !! lower s) as [fs|]; munfold;
    [|exists []; rewrite app_nil_r; by split].
  match goal with
  | |- context [for_each ?f fs ?t] =>
      assert (Hst : (for_each f fs t).2 = t) by apply for_each_getitem_state;
      destruct (for_each f fs t) as [[X|e] t1]
  end;
    simpl in Hst; subst t1; munfold;
    [|exists []; rewrite app_nil_r; by split].
  destruct (ss !! lower s) as [scaler|]; munfold;
    [|exists []; rewrite app_nil_r; by split].
  destruct (transform scaler [X]) as [X_scaled|e]; munfold;
    [|exists [EvTransform (lower s) [X]]; split; [done|by repeat constructor]].
  destruct (ms !! lower s) as [model|]; munfold;
    [|exists [EvTransform (lower s) [X]]; split; [done|by repeat constructor]].
  exists [EvTransform (lower s) [X]; EvPredict (lower s) X_scaled].
  split; [|by repeat constructor].
  destruct (predict model X_scaled) as [[|l ls]|e]; simpl; by rewrite <- app_assoc.
Qed.

(** ** Properties of [predict_player_performance] *)

Lemma store_all_loads_ok : loads_ok store_all.
Proof.
  intros path Hin. unfold store_all. rewrite decide_True by done. by eexists.
Qed.

(** C10.  Whatever the record (its Position may be invalid, or absent),
    prediction starts by loading the model and the scaler of all four
    positions, eight files in a fixed order: when the eight loads succeed the
    trace starts with them and holds no other load; when one of the eight
    files cannot be loaded the outcome is a load failure and nothing but load
    attempts has happened, so no record gets a prediction. *)
Theorem predict_loads_before_validation (st : store)
    (player_data : gmap string value) :
  length artifact_paths = 8%nat
  ∧ (loads_ok st →
     ∃ rest,
       (predict_player_performance st player_data []).2
       = (map EvLoad artifact_paths ++ rest)%list
       ∧ Forall (λ e, ∀ path, e ≠ EvLoad path) rest)
  ∧ (∀ path, path ∈ artifact_paths → st path = None →
     ∃ q k,
       predict_player_performance st player_data []
       = (Raise (LoadFailure q), map EvLoad (take (S k) artifact_paths))
       ∧ artifact_paths !! k = Some q ∧ st q = None).
Proof.
  split; [done|]. split.
  - apply predict_trace_shape.
  - apply predict_load_failure.
Qed.

Lemma predict_loads_before_validation_witness :
  (∃ rest,
     (predict_player_performance store_all wingback []).2
     = (map EvLoad artifact_paths ++ rest)%list
     ∧ Forall (λ e, ∀ path, e ≠ EvLoad path) rest)
  ∧ (∃ q k,
       predict_player_performance store_no_gk_scaler wingback []
       = (Raise (LoadFailure q), map EvLoad (take (S k) artifact_paths))
       ∧ artifact_paths !! k = Some q ∧ store_no_gk_scaler q = None).
Proof.
  split.
  - apply (proj1 (proj2 (predict_loads_before_validation store_all wingback))).
    exact store_all_loads_ok.
  - apply (proj2 (proj2 (predict_loads_before_validation store_no_gk_scaler wingback))
             "model/goalkeeper_scaler.joblib").
    + apply list_elem_of_In. simpl. tauto.
    + reflexivity.
Defined.

(** A record whose Position is a string outside the four, once the loads
    have succeeded. *)
Lemma predict_invalid_position (st : store) (player_data : gmap string value)
    (s : string) :
  player_data !! "Position" = Some (VStr s) → lower s ∉ positions → loads_ok st →
  predict_player_performance st player_data []
  = (Ok "Invalid position", map EvLoad artifact_paths).
Proof.
  intros Hpos Hbad Hok. after_loads st Hok ms ss Hin.
  munfold. rewrite Hpos. munfold. by rewrite decide_False.
Qed.

(** C2, as the code has it.  For a record whose Position is an ASCII string
    that, lowercased, is none of the four: prediction first attempts the
    loads of all positions; when the eight loads succeed it returns the fixed
    string "Invalid position", having loaded eight files and called no scaler
    and no classifier; when a file cannot be loaded the outcome is that load
    failure. *)
Theorem invalid_position_after_loads (st : store)
    (player_data : gmap string value) (s : string) :
  player_data !! "Position" = Some (VStr s) →
  is_ascii s = true →
  lower s ∉ positions →
  (loads_ok st →
   predict_player_performance st player_data []
   = (Ok "Invalid position", map EvLoad artifact_paths))
  ∧ (∀ path, path ∈ artifact_paths → st path = None →
     ∃ q, (predict_player_performance st player_data []).1 = Raise (LoadFailure q)
          ∧ q ∈ artifact_paths ∧ st q = None).
Proof.
  intros Hpos _ Hbad. split.
  - by apply predict_invalid_position with s.
  - intros path Hin Hnone.
    destruct (predict_load_failure st player_data path Hin Hnone)
      as (q & k & Heq & Hk & Hq).
    exists q. rewrite Heq. split; [done|]. split; [|done].
    by apply list_elem_of_lookup_2 with k.
Qed.

Lemma wingback_not_a_position : lower "Wingback" ∉ positions.
Proof.
  intros H. apply list_elem_of_In in H. simpl in H.
  repeat (destruct H as [H|H]; [discriminate H|]). exact H.
Qed.

Lemma invalid_position_after_loads_witness :
  predict_player_performance store_all wingback []
  = (Ok "Invalid position", map EvLoad artifact_paths)
  ∧ ∃ q, (predict_player_performance store_no_gk_scaler wingback []).1
         = Raise (LoadFailure q)
         ∧ q ∈ artifact_paths ∧ store_no_gk_scaler q = None.
Proof.
  split.
  - apply (proj1 (invalid_position_after_loads store_all wingback "Wingback"
                    eq_refl eq_refl wingback_not_a_position)).
    exact store_all_loads_ok.
  - apply (proj2 (invalid_position_after_loads store_no_gk_scaler wingback "Wingback"
                    eq_refl eq_refl wingback_not_a_position)
             "model/goalkeeper_scaler.joblib").
    + apply list_elem_of_In. simpl. tauto.
    + reflexivity.
Defined.

(** C2 fails as stated.  With Position "Wingback" and every file present,
    eight loads are attempted before the position is looked at, and the
    outcome is the returned string "Invalid position": the same outcome as
    for "Sweeper", so it does not carry the offending value. *)
Lemma invalid_position_counterexample :
  wingback !! "Position" = Some (VStr "Wingback")
  ∧ (lower "Wingback" ∉ positions)
  ∧ predict_player_performance store_all wingback []
    = (Ok "Invalid position",
       [EvLoad "model/defender_model.joblib"; EvLoad "model/defender_scaler.joblib";
        EvLoad "model/midfielder_model.joblib"; EvLoad "model/midfielder_scaler.joblib";
        EvLoad "model/striker_model.joblib"; EvLoad "model/striker_scaler.joblib";
        EvLoad "model/goalkeeper_model.joblib"; EvLoad "model/goalkeeper_scaler.joblib"])
  ∧ (predict_player_performance store_all sweeper []).1
    = (predict_player_performance store_all wingback []).1.
Proof.
  split; [reflexivity|]. split; [exact wingback_not_a_position|].
  split; vm_compute; reflexivity.
Qed.

(** The keys of the routing table are the four positions. *)
Lemma features_dom (position : string) (fs : list string) :
  features !! position = Some fs → position ∈ positions.
Proof.
  unfold features, positions. intros H.
  repeat (apply lookup_insert_Some in H as [[<- _]|[_ H]]; [set_solver|]).
  by rewrite lookup_empty in H.
Qed.

(** C3, as the code has it.  For a record with a valid position in which
    [name] is the first attribute of the position's feature list that the
    record lacks: once the eight loads have succeeded, the dict lookup raises
    KeyError naming [name], an exception that leaves the function; no scaler
    and no classifier has been called. *)
Theorem missing_feature_raises_KeyError (st : store)
    (player_data : gmap string value) (s : string)
    (pre post : list string) (name : string) :
  player_data !! "Position" = Some (VStr s) →
  features !! lower s = Some (pre ++ name :: post)%list →
  Forall (λ f, is_Some (player_data !! f)) pre →
  player_data !! name = None →
  loads_ok st →
  predict_player_performance st player_data []
  = (Raise (KeyError name), map EvLoad artifact_paths).
Proof.
  intros Hpos Hfs Hpre Hname Hok.
  pose proof (features_dom _ _ Hfs) as Hvalid.
  after_loads st Hok ms ss Hin.
  munfold. rewrite Hpos. munfold. rewrite decide_True by done.
  munfold. rewrite Hfs. munfold.
  by rewrite (for_each_getitem_missing player_data pre post name _ Hpre Hname).
Qed.

Lemma missing_feature_raises_KeyError_witness :
  predict_player_performance store_all midfielder_no_tackle_won []
  = (Raise (KeyError "Tackle Won"), map EvLoad artifact_paths).
Proof.
  apply (missing_feature_raises_KeyError store_all midfielder_no_tackle_won "Midfielder"
           ["Appearances"; "Key Passes"; "Pass Attempt / 90 minutes";
            "Pass Completed / 90 minutes"; "Tackle Attempt"] [] "Tackle Won").
  - reflexivity.
  - reflexivity.
  - repeat (apply Forall_cons; split; [by eexists|]). apply Forall_nil. done.
  - reflexivity.
  - exact store_all_loads_ok.
Defined.

(** C3 fails as stated.  A midfielder record without "Tackle Won" does not
    come back with a returned outcome: the call ends in the raised exception
    KeyError. *)
Lemma missing_feature_counterexample :
  midfielder_no_tackle_won !! "Position" = Some (VStr "Midfielder")
  ∧ midfielder_no_tackle_won !! "Tackle Won" = None
  ∧ (predict_player_performance store_all midfielder_no_tackle_won []).1
    = Raise (KeyError "Tackle Won")
  ∧ ¬ ∃ outcome : string,
        (predict_player_performance store_all midfielder_no_tackle_won []).1
        = Ok outcome.
Proof.
  split; [reflexivity|]. split; [reflexivity|].
  assert (H : (predict_player_performance store_all midfielder_no_tackle_won []).1
              = Raise (KeyError "Tackle Won")) by (vm_compute; reflexivity).
  split; [exact H|]. intros [outcome Hout]. rewrite H in Hout. discriminate Hout.
Qed.

(** What the call does for a goalkeeper record, in terms of the four
    attributes only. *)
Lemma predict_goalkeeper_eq (st : store) (player_data : gmap string value)
    (s : string) (age appearances conceded shutouts : value) :
  player_data !! "Position" = Some (VStr s) →
  lower s = "goalkeeper" →
  player_data !! "Age" = Some age →
  player_data !! "Appearances" = Some appearances →
  player_data !! "Conceded" = Some conceded →
  player_data !! "Shutouts" = Some shutouts →
  predict_player_performance st player_data []
  = match load_artifacts st positions ∅ ∅ [] with
    | (Ok (models, scalers), t) =>
        (scaler ← getitem scalers "goalkeeper";
         X_scaled ← call_transform "goalkeeper" scaler
                      [[age; appearances; conceded; shutouts]];
         model ← getitem models "goalkeeper";
         prediction ← call_predict "goalkeeper" model X_scaled;
         first prediction) t
    | (Raise e, t) => (Raise e, t)
    end.
Proof.
  intros Hpos Hlow Hage Happ Hcon Hshut.
  unfold predict_player_performance. unfold mbind at 1, M_bind at 1.
  destruct (load_artifacts st positions ∅ ∅ []) as [[[ms ss]|e] t]; [|done].
  unfold mbind at 1, M_bind at 1. rewrite getitem_eq, Hpos.
  unfold mbind at 1, M_bind at 1. unfold str_lower at 1, mret at 1, M_ret at 1.
  rewrite Hlow. rewrite decide_True by (unfold positions; set_solver).
  unfold mbind at 1, M_bind at 1. rewrite getitem_eq.
  change (features !! "goalkeeper")
    with (Some ["Age"; "Appearances"; "Conceded"; "Shutouts"]).
  cbv beta iota. unfold mbind at 1, M_bind at 1.
  rewrite (for_each_getitem_ok player_data _ [age; appearances; conceded; shutouts]).
  - done.
  - repeat (apply Forall2_cons; split; [done|]). apply Forall2_nil. done.
Qed.

(** C5.  For a record whose Position lowercases to "goalkeeper" and that
    holds the four goalkeeper attributes: every scaler call that the
    prediction makes is the goalkeeper scaler on the one row
    [Age, Appearances, Conceded, Shutouts], in this order; when the eight
    loads succeed the outcome is the first label the goalkeeper classifier
    gives for the scaled row; and any other record that is a goalkeeper's
    with the same four values gets the same outcome and the same trace,
    whatever its other attributes and the casing of its Position. *)
Theorem goalkeeper_input_vector (st : store) (player_data : gmap string value)
    (s : string) (age appearances conceded shutouts : value) :
  player_data !! "Position" = Some (VStr s) →
  lower s = "goalkeeper" →
  player_data !! "Age" = Some age →
  player_data !! "Appearances" = Some appearances →
  player_data !! "Conceded" = Some conceded →
  player_data !! "Shutouts" = Some shutouts →
  (∀ position X,
     EvTransform position X ∈ (predict_player_performance st player_data []).2 →
     position = "goalkeeper" ∧ X = [[age; appearances; conceded; shutouts]])
  ∧ (∀ scaler model,
       loads_ok st →
       st (scaler_path "goalkeeper") = Some scaler →
       st (model_path "goalkeeper") = Some model →
       predict_player_performance st player_data []
       = match transform scaler [[age; appearances; conceded; shutouts]] with
         | Raise e =>
             (Raise e,
              (map EvLoad artifact_paths
               ++ [EvTransform "goalkeeper" [[age; appearances; conceded; shutouts]]])%list)
         | Ok X_scaled =>
             (match predict model X_scaled with
              | Raise e => Raise e
              | Ok [] => Raise IndexError
              | Ok (label :: _) => Ok label
              end,
              (map EvLoad artifact_paths
               ++ [EvTransform "goalkeeper" [[age; appearances; conceded; shutouts]];
                   EvPredict "goalkeeper" X_scaled])%list)
         end)
  ∧ (∀ (other : gmap string value) (s' : string),
       other !! "Position" = Some (VStr s') →
       lower s' = "goalkeeper" →
       other !! "Age" = Some age →
       other !! "Appearances" = Some appearances →
       other !! "Conceded" = Some conceded →
       other !! "Shutouts" = Some shutouts →
       predict_player_performance st other []
       = predict_player_performance st player_data []).
Proof.
  intros Hpos Hlow Hage Happ Hcon Hshut.
  assert (Hloaded : ∀ scaler model,
    loads_ok st →
    st (scaler_path "goalkeeper") = Some scaler →
    st (model_path "goalkeeper") = Some model →
    predict_player_performance st player_data []
    = match transform scaler [[age; appearances; conceded; shutouts]] with
      | Raise e =>
          (Raise e,
           (map EvLoad artifact_paths
            ++ [EvTransform "goalkeeper" [[age; appearances; conceded; shutouts]]])%list)
      | Ok X_scaled =>
          (match predict model X_scaled with
           | Raise e => Raise e
           | Ok [] => Raise IndexError
           | Ok (label :: _) => Ok label
           end,
           (map EvLoad artifact_paths
            ++ [EvTransform "goalkeeper" [[age; appearances; conceded; shutouts]];
                EvPredict "goalkeeper" X_scaled])%list)
      end).
  { intros scaler model Hok Hsc Hmo.
    rewrite (predict_goalkeeper_eq st player_data s age appearances conceded shutouts)
      by done.
    destruct (load_artifacts_ok st positions ∅ ∅ [] (loads_ok_Forall st Hok))
      as (ms & ss & Heq & Hin & _).
    rewrite Heq. change ([] ++ ?l)%list with l. fold artifact_paths.
    destruct (Hin "goalkeeper") as [Hms Hss]; [apply list_elem_of_In; simpl; tauto|].
    munfold. rewrite Hss, Hsc. munfold.
    destruct (transform scaler _) as [X_scaled|e]; munfold; [|done].
    rewrite Hms, Hmo. munfold.
    destruct (predict model X_scaled) as [[|l ls]|e]; munfold;
      by rewrite <- app_assoc. }
  split; [|split].
  - intros position X Hev.
    destruct (decide (Forall (λ path, is_Some (st path)) artifact_paths)) as [Hall|Hnot].
    + assert (Hok : loads_ok st)
        by (intros path Hin; exact (proj1 (Forall_forall _ _) Hall path Hin)).
      destruct (Hok (scaler_path "goalkeeper")) as [scaler Hsc];
        [apply list_elem_of_In; simpl; tauto|].
      destruct (Hok (model_path "goalkeeper")) as [model Hmo];
        [apply list_elem_of_In; simpl; tauto|].
      rewrite (Hloaded scaler model Hok Hsc Hmo) in Hev.
      destruct (transform scaler _) as [X_scaled|e]; simpl in Hev;
        repeat (apply elem_of_cons in Hev as [Hev|Hev];
                [try discriminate Hev; by inversion Hev|]);
        by apply elem_of_nil in Hev.
    + apply not_Forall_Exists in Hnot; [|intros path; apply _].
      apply Exists_exists in Hnot as (path & Hin & Hnone).
      destruct (predict_load_failure st player_data path Hin) as (q & k & Heq & _).
      { destruct (st path) as [a|] eqn:Hpath; [|done].
        exfalso. apply Hnone. simpl. rewrite Hpath. by eexists. }
      rewrite Heq in Hev. cbn [snd] in Hev.
      apply list_elem_of_fmap in Hev as (p & Hx & _). discriminate Hx.
  - exact Hloaded.
  - intros other s' Hpos' Hlow' Hage' Happ' Hcon' Hshut'.
    rewrite (predict_goalkeeper_eq st player_data s age appearances conceded shutouts)
      by done.
    by rewrite (predict_goalkeeper_eq st other s' age appearances conceded shutouts).
Qed.

Lemma goalkeeper_input_vector_witness :
  predict_player_performance store_all keeper []
  = (Ok "Good",
     (map EvLoad artifact_paths
      ++ [EvTransform "goalkeeper" [[VNum 27; VNum 30; VNum 22; VNum 6]];
          EvPredict "goalkeeper" [[27%Q; 30%Q; 22%Q; 6%Q]]])%list)
  ∧ predict_player_performance store_all keeper' []
    = predict_player_performance store_all keeper [].
Proof.
  destruct (goalkeeper_input_vector store_all keeper "Goalkeeper"
              (VNum 27) (VNum 30) (VNum 22) (VNum 6))
    as (_ & Hloaded & Hsame); [reflexivity..|].
  split.
  - rewrite (Hloaded (sample_artifact "Good") (sample_artifact "Good")
               store_all_loads_ok eq_refl eq_refl).
    reflexivity.
  - apply (Hsame keeper' "GOALKEEPER"); reflexivity.
Defined.

(** ** Facts about the reductions and the normalisation *)

Section Reductions.

Local Open Scope Q_scope.

Lemma foldl_Qmin_le_init (l : list Q) (x : Q) : foldl Qmin x l <= x.
Proof.
  revert x. induction l as [|a l IH]; intros x; simpl.
  - apply Qle_refl.
  - eapply Qle_trans; [apply IH|apply Q.le_min_l].
Qed.

Lemma foldl_Qmin_le (l : list Q) (x y : Q) : y ∈ l → foldl Qmin x l <= y.
Proof.
  revert x. induction l as [|a l IH]; intros x Hy.
  - by apply elem_of_nil in Hy.
  - apply elem_of_cons in Hy as [->|Hy]; simpl.
    + eapply Qle_trans; [apply foldl_Qmin_le_init|apply Q.le_min_r].
    + by apply IH.
Qed.

Lemma foldl_Qmax_ge_init (l : list Q) (x : Q) : x <= foldl Qmax x l.
Proof.
  revert x. induction l as [|a l IH]; intros x; simpl.
  - apply Qle_refl.
  - eapply Qle_trans; [apply Q.le_max_l|apply IH].
Qed.

Lemma foldl_Qmax_ge (l : list Q) (x y : Q) : y ∈ l → y <= foldl Qmax x l.
Proof.
  revert x. induction l as [|a l IH]; intros x Hy.
  - by apply elem_of_nil in Hy.
  - apply elem_of_cons in Hy as [->|Hy]; simpl.
    + eapply Qle_trans; [apply Q.le_max_r|apply foldl_Qmax_ge_init].
    + by apply IH.
Qed.

(** The minimum of a column is below each of its cells, the maximum above. *)
Lemma series_min_le (l : list Q) (m y : Q) :
  series_min l = Fin m → y ∈ l → m <= y.
Proof.
  destruct l as [|x l]; [done|]. intros [= <-] Hy.
  apply elem_of_cons in Hy as [->|Hy].
  - apply foldl_Qmin_le_init.
  - by apply foldl_Qmin_le.
Qed.

Lemma series_max_ge (l : list Q) (M y : Q) :
  series_max l = Fin M → y ∈ l → y <= M.
Proof.
  destruct l as [|x l]; [done|]. intros [= <-] Hy.
  apply elem_of_cons in Hy as [->|Hy].
  - apply foldl_Qmax_ge_init.
  - by apply foldl_Qmax_ge.
Qed.







(** One entry of the normalised Series, when the column has no spread:
    the division is [0/0]. *)
Lemma normalise_flat (v m M : Q) :
  m <= v <= M → M == m →
  xdiv (xsub (Fin v) (Fin m)) (xsub (Fin M) (Fin m)) = NaN.
Proof.
  intros [Hlo Hup] Heq. simpl.
  assert (Hd : Qeq_bool (M - m) 0 = true) by (apply Qeq_bool_iff; lra).
  assert (Hn : Qeq_bool (v - m) 0 = true) by (apply Qeq_bool_iff; lra).
  by rewrite Hd, Hn.
Qed.

End Reductions.

(** ** Facts about frames *)

Lemma lookup_map {A B} (f : A → B) (l : list A) (i : nat) :
  map f l !! i = f <$> (l !! i).
Proof. exact (list_lookup_fmap f l i). Qed.

Lemma filter_first_match {A} (P : A → Prop) `{!∀ x, Decision (P x)}
    (pre post : list A) (x : A) :
  Forall (λ y, ¬ P y) pre → P x →
  filter P (pre ++ x :: post)%list = x :: filter P post.
Proof.
  intros Hpre Hx. rewrite filter_app, filter_cons_True by done.
  induction Hpre as [|y pre Hy _ IH]; [done|].
  by rewrite filter_cons_False.
Qed.

Lemma getcols_ok {S} (df : DataFrame) (cols : list string) (s : S) :
  Forall (λ c, c ∈ columns df) cols →
  getcols df cols s = (Ok {| columns := cols; rows := rows df |}, s).
Proof.
  intros Hall. unfold getcols.
  assert (Hnone : filter (λ c, c ∉ columns df) cols = []).
  { induction Hall as [|c cols Hc _ IH]; [done|].
    rewrite filter_cons_False; [done|]. by intros []. }
  by rewrite Hnone.
Qed.

(** The outcome for a player who is in the dataset: [subject] is the first
    row with the requested name, and the requested features are columns. *)
Lemma player_radar_chart_found (df : DataFrame) (player_name : string)
    (features : list string) (w : Session)
    (subject : PlayerRecord) (pre post : list PlayerRecord) :
  rows df = (pre ++ subject :: post)%list →
  Forall (λ x, Name x ≠ player_name) pre →
  Name subject = player_name →
  Forall (λ c, c ∈ columns df) features →
  let sel := {| columns := features;
                rows := filter (λ x, Position x = Position subject) (rows df) |} in
  let spread := series_sub (frame_max sel) (frame_min sel) in
  player_radar_chart df player_name features w
  = (Ok (Some
       ({| data :=
             [ {| r := series_div (series_sub (frame_mean sel) (frame_min sel)) spread;
                  theta := features; fill := "toself";
                  name := "Average Player"; line_color := "blue" |};
               {| r := series_div
                         (series_sub (map (λ c, Fin (num subject c)) features)
                                     (frame_min sel)) spread;
                  theta := features; fill := "toself";
                  name := player_name; line_color := "red" |} ];
           radialaxis_visible := true;
           radialaxis_range := (0%Q, 1%Q);
           showlegend := true;
           title := "Normalized Player Comparison: Average vs " ++ player_name;
           title_font_size := 20;
           height := 600;
           width := 800 |},
        {| columns := columns df;
           rows := subject :: filter (λ x, Name x = player_name) post |})),
     w).
Proof.
  destruct df as [cols rws]. simpl columns. simpl rows.
  intros -> Hpre Hname Hcols sel spread.
  unfold player_radar_chart, mask. simpl columns. simpl rows.
  rewrite (filter_first_match (λ x, Name x = player_name) pre post subject Hpre Hname).
  rewrite decide_False by done.
  simpl map. unfold first at 1.
  unfold mbind at 1, M_bind at 1, mret at 1, M_ret at 1. cbv beta iota.
  unfold mbind at 1, M_bind at 1. rewrite getcols_ok by done.
  unfold mbind at 1, M_bind at 1. rewrite getcols_ok by done.
  unfold mbind at 1, M_bind at 1. unfold iloc0, first. simpl rows.
  unfold mbind at 1, M_bind at 1, mret at 1, M_ret at 1. cbv beta iota.
  unfold mret at 1, M_ret at 1.
  unfold mbind at 1, M_bind at 1. rewrite getcols_ok by done.
  unfold mbind at 1, M_bind at 1. rewrite getcols_ok by done.
  reflexivity.
Qed.

Lemma normalised_entry (sel : DataFrame) (values : list xnum)
    (i : nat) (f : string) (v : xnum) :
  columns sel !! i = Some f → values !! i = Some v →
  series_div (series_sub values (frame_min sel))
             (series_sub (frame_max sel) (frame_min sel)) !! i
  = Some (xdiv (xsub v (series_min (column sel f)))
               (xsub (series_max (column sel f)) (series_min (column sel f)))).
Proof.
  intros Hf Hv. unfold series_div, series_sub, frame_min, frame_max.
  rewrite !lookup_zip_with, !lookup_map, Hf, Hv. done.
Qed.

(** The chart of a player who is in the dataset, entry by entry: both
    Series are normalised with the minimum and the maximum of the rows
    [peers], the first with the mean of these rows, the second with the cell
    of [subject]. *)
Lemma radar_entries (df : DataFrame) (player_name : string)
    (features : list string) (w : Session)
    (subject : PlayerRecord) (pre post : list PlayerRecord) :
  rows df = (pre ++ subject :: post)%list →
  Forall (λ x, Name x ≠ player_name) pre →
  Name subject = player_name →
  Forall (λ c, c ∈ columns df) features →
  let peers := filter (λ x, Position x = Position subject) (rows df) in
  ∃ fig pd avg player,
    player_radar_chart df player_name features w = (Ok (Some (fig, pd)), w)
    ∧ data fig = [avg; player]
    ∧ rows pd = subject :: filter (λ x, Name x = player_name) post
    ∧ ∀ i f, features !! i = Some f →
        r avg !! i
        = Some (xdiv (xsub (series_mean (map (λ x, num x f) peers))
                           (series_min (map (λ x, num x f) peers)))
                     (xsub (series_max (map (λ x, num x f) peers))
                           (series_min (map (λ x, num x f) peers))))
        ∧ r player !! i
          = Some (xdiv (xsub (Fin (num subject f))
                             (series_min (map (λ x, num x f) peers)))
                       (xsub (series_max (map (λ x, num x f) peers))
                             (series_min (map (λ x, num x f) peers)))).
Proof.
  intros Hrows Hpre Hname Hcols peers.
  pose proof (player_radar_chart_found df player_name features w subject pre post
                Hrows Hpre Hname Hcols) as Hfound.
  cbv zeta in Hfound.
  eexists _, _, _, _. split; [exact Hfound|].
  split; [reflexivity|]. split; [reflexivity|].
  intros i f Hf. cbn [r]. split.
  - apply (normalised_entry {| columns := features; rows := peers |}); [done|].
    unfold frame_mean. cbn [columns]. by rewrite lookup_map, Hf.
  - apply (normalised_entry {| columns := features; rows := peers |}); [done|].
    by rewrite lookup_map, Hf.
Qed.

Lemma subject_in_peers (df : DataFrame) (subject : PlayerRecord)
    (pre post : list PlayerRecord) :
  rows df = (pre ++ subject :: post)%list →
  subject ∈ filter (λ x, Position x = Position subject) (rows df).
Proof.
  intros ->. apply list_elem_of_filter. split; [done|].
  apply elem_of_app. right. left.
Qed.

(** ** Properties of [player_radar_chart] *)

Lemma filter_absent (l : list PlayerRecord) (player_name : string) :
  (∀ x, x ∈ l → Name x ≠ player_name) →
  filter (λ x, Name x = player_name) l = [].
Proof.
  induction l as [|x l IH]; intros Habsent; [done|].
  rewrite filter_cons_False by (apply Habsent; left).
  apply IH. intros y Hy. apply Habsent. by right.
Qed.

(** The outcome for a name that no row carries. *)
Lemma not_found_outcome (df : DataFrame) (player_name : string)
    (features : list string) (w : Session) :
  (∀ x, x ∈ rows df → Name x ≠ player_name) →
  player_radar_chart df player_name features w
  = (Ok None,
     {| dataset := dataset w;
        page := (page w
                 ++ [("Player '" ++ player_name ++ "' not found in the dataset.")%string])%list |}).
Proof.
  intros Habsent. unfold player_radar_chart, mask. simpl rows.
  rewrite (filter_absent (rows df) player_name Habsent).
  rewrite decide_True by done. reflexivity.
Qed.

(** C6.  When no row of the dataset has the requested name, the comparison
    returns [None] after posting the message that names the player; this is
    the whole of what it does: the outcome is the same for every feature
    list, columns or not, so no peer group is formed and nothing is
    normalised. *)
Theorem absent_player_not_found (df : DataFrame) (player_name : string)
    (features : list string) (w : Session) :
  (∀ x, x ∈ rows df → Name x ≠ player_name) →
  player_radar_chart df player_name features w
  = (Ok None,
     {| dataset := dataset w;
        page := (page w
                 ++ [("Player '" ++ player_name ++ "' not found in the dataset.")%string])%list |}).
Proof. apply not_found_outcome. Qed.

Lemma absent_player_not_found_witness :
  player_radar_chart squad "Zoe" ["Tackle Won"; "No Such Column"] (fresh_session squad)
  = (Ok None,
     {| dataset := squad;
        page := ["Player 'Zoe' not found in the dataset."] |}).
Proof.
  apply (absent_player_not_found squad "Zoe" ["Tackle Won"; "No Such Column"]
           (fresh_session squad)).
  intros x Hx. apply list_elem_of_In in Hx. simpl in Hx.
  repeat (destruct Hx as [<-|Hx]; [discriminate|]). destruct Hx.
Defined.

(** C7.  For a player found in the dataset, the rows over which the
    comparison takes the minimum, the maximum and the mean are the rows of
    the dataset whose Position is the same string as the subject's (equality
    of strings, so casing counts), in dataset order; the subject's row is one
    of them. *)
Theorem peer_group_is_same_position (df : DataFrame) (player_name : string)
    (features : list string) (w : Session)
    (subject : PlayerRecord) (pre post : list PlayerRecord) :
  rows df = (pre ++ subject :: post)%list →
  Forall (λ x, Name x ≠ player_name) pre →
  Name subject = player_name →
  Forall (λ c, c ∈ columns df) features →
  let peers := filter (λ x, Position x = Position subject) (rows df) in
  (∀ x, x ∈ peers ↔ x ∈ rows df ∧ Position x = Position subject)
  ∧ subject ∈ peers
  ∧ ∃ fig pd avg player,
      player_radar_chart df player_name features w = (Ok (Some (fig, pd)), w)
      ∧ data fig = [avg; player]
      ∧ ∀ i f, features !! i = Some f →
          r avg !! i
          = Some (xdiv (xsub (series_mean (map (λ x, num x f) peers))
                             (series_min (map (λ x, num x f) peers)))
                       (xsub (series_max (map (λ x, num x f) peers))
                             (series_min (map (λ x, num x f) peers))))
          ∧ r player !! i
            = Some (xdiv (xsub (Fin (num subject f))
                               (series_min (map (λ x, num x f) peers)))
                         (xsub (series_max (map (λ x, num x f) peers))
                               (series_min (map (λ x, num x f) peers)))).
Proof.
  intros Hrows Hpre Hname Hcols peers. split; [|split].
  - intros x. unfold peers. rewrite list_elem_of_filter. tauto.
  - by apply subject_in_peers with pre post.
  - destruct (radar_entries df player_name features w subject pre post
                Hrows Hpre Hname Hcols) as (fig & pd & avg & player & Hrun & Hdata & _ & Hent).
    by exists fig, pd, avg, player.
Qed.

Lemma stat_columns_present : Forall (λ c, c ∈ columns namesakes) stat_columns.
Proof.
  repeat (apply Forall_cons; split; [apply list_elem_of_In; simpl; tauto|]).
  apply Forall_nil. done.
Qed.

Lemma ana_is_not_sam : Forall (λ x, Name x ≠ "Sam") [ana].
Proof. apply Forall_cons. split; [discriminate|]. apply Forall_nil. done. Qed.

Lemma peer_group_is_same_position_witness :
  let peers := filter (λ x, Position x = "Midfielder") (rows namesakes) in
  (∀ x, x ∈ peers ↔ x ∈ rows namesakes ∧ Position x = "Midfielder")
  ∧ sam_midfielder ∈ peers
  ∧ peers = [sam_midfielder; bea].
Proof.
  destruct (peer_group_is_same_position namesakes "Sam" stat_columns
              (fresh_session namesakes) sam_midfielder [ana] [bea; sam_defender; dov]
              eq_refl ana_is_not_sam eq_refl stat_columns_present)
    as (Hiff & Hin & _).
  split; [exact Hiff|]. split; [exact Hin|]. reflexivity.
Defined.

(** C9.  When several rows carry the requested name, the subject is the
    first of them in dataset order: the returned frame starts with it, its
    Position selects the peers, and its cells are the ones normalised into
    the player's Series. *)
Theorem duplicate_names_first_match (df : DataFrame) (player_name : string)
    (features : list string) (w : Session)
    (subject other : PlayerRecord) (pre post : list PlayerRecord) :
  rows df = (pre ++ subject :: post)%list →
  Forall (λ x, Name x ≠ player_name) pre →
  Name subject = player_name →
  other ∈ post → Name other = player_name →
  Forall (λ c, c ∈ columns df) features →
  let peers := filter (λ x, Position x = Position subject) (rows df) in
  ∃ fig pd avg player,
    player_radar_chart df player_name features w = (Ok (Some (fig, pd)), w)
    ∧ data fig = [avg; player]
    ∧ rows pd !! 0%nat = Some subject
    ∧ other ∈ rows pd
    ∧ ∀ i f, features !! i = Some f →
        r avg !! i
        = Some (xdiv (xsub (series_mean (map (λ x, num x f) peers))
                           (series_min (map (λ x, num x f) peers)))
                     (xsub (series_max (map (λ x, num x f) peers))
                           (series_min (map (λ x, num x f) peers))))
        ∧ r player !! i
          = Some (xdiv (xsub (Fin (num subject f))
                             (series_min (map (λ x, num x f) peers)))
                       (xsub (series_max (map (λ x, num x f) peers))
                             (series_min (map (λ x, num x f) peers)))).
Proof.
  intros Hrows Hpre Hname Hother Honame Hcols peers.
  destruct (radar_entries df player_name features w subject pre post
              Hrows Hpre Hname Hcols) as (fig & pd & avg & player & Hrun & Hdata & Hpd & Hent).
  exists fig, pd, avg, player. rewrite Hpd.
  split; [done|]. split; [done|]. split; [done|]. split; [|done].
  right. by apply list_elem_of_filter.
Qed.

Lemma duplicate_names_first_match_witness :
  ∃ fig pd avg player,
    player_radar_chart namesakes "Sam" ["Tackle Won"] (fresh_session namesakes)
    = (Ok (Some (fig, pd)), fresh_session namesakes)
    ∧ data fig = [avg; player]
    ∧ rows pd !! 0%nat = Some sam_midfielder
    ∧ sam_defender ∈ rows pd
    ∧ (∃ a, r avg !! 0%nat = Some (Fin a) ∧ (a == 1 # 2)%Q)
    ∧ (∃ p, r player !! 0%nat = Some (Fin p) ∧ (p == 0)%Q).
Proof.
  destruct (duplicate_names_first_match namesakes "Sam" ["Tackle Won"]
              (fresh_session namesakes) sam_midfielder sam_defender
              [ana] [bea; sam_defender; dov])
    as (fig & pd & avg & player & Hrun & Hdata & Hhead & Hother & Hent).
  - reflexivity.
  - exact ana_is_not_sam.
  - reflexivity.
  - apply list_elem_of_In. simpl. tauto.
  - reflexivity.
  - apply Forall_cons. split; [apply list_elem_of_In; simpl; tauto|]. apply Forall_nil. done.
  - exists fig, pd, avg, player.
    destruct (Hent 0%nat "Tackle Won" eq_refl) as [Havg Hplayer].
    split; [exact Hrun|]. split; [exact Hdata|]. split; [exact Hhead|].
    split; [exact Hother|]. split.
    + eexists. split; [rewrite Havg; vm_compute; reflexivity|reflexivity].
    + eexists. split; [rewrite Hplayer; vm_compute; reflexivity|reflexivity].
Defined.





(** The example of the specification: two defenders with 10 and 20 on one
    feature give 0 and 1, and the peer average gives one half. *)
Lemma two_defenders_example :
  ∃ fig pd_ana pd_bea avg ana_series bea_series fig',
    player_radar_chart squad "Ana" ["Tackle Won"] (fresh_session squad)
    = (Ok (Some (fig, pd_ana)), fresh_session squad)
    ∧ data fig = [avg; ana_series]
    ∧ player_radar_chart squad "Bea" ["Tackle Won"] (fresh_session squad)
      = (Ok (Some (fig', pd_bea)), fresh_session squad)
    ∧ data fig' = [avg; bea_series]
    ∧ (∃ a, r avg = [Fin a] ∧ (a == 1 # 2)%Q)
    ∧ (∃ p, r ana_series = [Fin p] ∧ (p == 0)%Q)
    ∧ (∃ p, r bea_series = [Fin p] ∧ (p == 1)%Q).
Proof.
  eexists _, _, _, _, _, _, _.
  split; [vm_compute; reflexivity|]. split; [reflexivity|].
  split; [vm_compute; reflexivity|]. split; [reflexivity|].
  split; [|split]; eexists; (split; [reflexivity|reflexivity]).
Qed.

(** A division by a zero spread gives no number, whatever is divided. *)
Lemma xdiv_zero_spread_not_finite (x : xnum) (m M : Q) :
  (M == m)%Q → is_finite (xdiv x (xsub (Fin M) (Fin m))) = false.
Proof.
  intros Heq. simpl.
  assert (Hd : Qeq_bool (M - m) 0 = true) by (apply Qeq_bool_iff; lra).
  destruct x as [a| | |]; simpl; rewrite ?Hd.
  - destruct (Qeq_bool a 0); [done|]. by destruct (Qle_bool 0 a).
  - done.
  - by destruct (Qle_bool 0 (M - m)).
  - by destruct (Qle_bool 0 (M - m)).
Qed.

(** C1, as the code has it.  For a player found in the dataset and a
    requested feature whose maximum over the peer group equals its minimum:
    the comparison raises nothing and puts no fallback number in.  The
    subject's entry at that feature is NaN, the value of zero divided by
    zero; the average's entry is the mean less the minimum, divided by zero,
    which is no finite number either (NaN when the computed mean is the
    minimum, infinite when rounding has moved it away). *)
Theorem zero_spread_gives_no_number (df : DataFrame) (player_name : string)
    (features : list string) (w : Session)
    (subject : PlayerRecord) (pre post : list PlayerRecord)
    (i : nat) (f : string) (m M : Q) :
  rows df = (pre ++ subject :: post)%list →
  Forall (λ x, Name x ≠ player_name) pre →
  Name subject = player_name →
  Forall (λ c, c ∈ columns df) features →
  features !! i = Some f →
  let peers := filter (λ x, Position x = Position subject) (rows df) in
  series_min (map (λ x, num x f) peers) = Fin m →
  series_max (map (λ x, num x f) peers) = Fin M →
  (M == m)%Q →
  ∃ fig pd avg player a,
    player_radar_chart df player_name features w = (Ok (Some (fig, pd)), w)
    ∧ data fig = [avg; player]
    ∧ r avg !! i = Some a
    ∧ is_finite a = false
    ∧ r player !! i = Some NaN.
Proof.
  intros Hrows Hpre Hname Hcols Hf peers Hm HM Heq.
  destruct (radar_entries df player_name features w subject pre post
              Hrows Hpre Hname Hcols) as (fig & pd & avg & player & Hrun & Hdata & _ & Hent).
  destruct (Hent i f Hf) as [Havg Hplayer]. fold peers in Havg, Hplayer.
  assert (Hcell : num subject f ∈ map (λ x, num x f) peers).
  { apply (list_elem_of_fmap_2 (λ x, num x f) peers subject).
    by apply subject_in_peers with pre post. }
  assert (Hb : (m <= num subject f <= M)%Q).
  { split; [by apply series_min_le with (map (λ x, num x f) peers)
           |by apply series_max_ge with (map (λ x, num x f) peers)]. }
  rewrite Hm, HM in Havg. rewrite Hm, HM in Hplayer.
  rewrite (normalise_flat (num subject f) m M Hb Heq) in Hplayer.
  eexists fig, pd, avg, player, _.
  split; [done|]. split; [done|]. split; [exact Havg|]. split; [|done].
  by apply xdiv_zero_spread_not_finite.
Qed.

Lemma zero_spread_gives_no_number_witness :
  ∃ fig pd avg player a,
    player_radar_chart squad "Ana" stat_columns (fresh_session squad)
    = (Ok (Some (fig, pd)), fresh_session squad)
    ∧ data fig = [avg; player]
    ∧ r avg !! 0%nat = Some a
    ∧ is_finite a = false
    ∧ r player !! 0%nat = Some NaN.
Proof.
  apply (zero_spread_gives_no_number squad "Ana" stat_columns (fresh_session squad)
           (row "Ana" "Defender" [("Interception", 4%Q); ("Tackle Won", 10%Q)])
           []
           [row "Bea" "Defender" [("Interception", 4%Q); ("Tackle Won", 20%Q)];
            row "Cai" "Goalkeeper" [("Interception", 1%Q); ("Tackle Won", 2%Q)]]
           0%nat "Interception" 4%Q 4%Q).
  - reflexivity.
  - apply Forall_nil. done.
  - reflexivity.
  - exact stat_columns_present.
  - reflexivity.
  - reflexivity.
  - reflexivity.
  - reflexivity.
Defined.

(** In binary64 the average's entry of a flat column need not be NaN: the
    mean of three cells 0.1 is 0.10000000000000002, and the division by the
    zero spread gives infinity. *)
Lemma flat_float_column_average_is_infinite :
  let cell := 0x1.999999999999ap-4%float in
  let column := [cell; cell; cell] in
  f64_max column = f64_min column
  ∧ f64_mean column = 0x1.999999999999bp-4%float
  ∧ f64_normalised (f64_mean column) column = PrimFloat.infinity
  ∧ PrimFloat.is_nan (f64_normalised cell column) = true.
Proof. repeat split; vm_compute; reflexivity. Qed.

(** C1 fails as stated.  Cai is the only goalkeeper of the squad, so the
    maximum and the minimum of "Tackle Won" over the peer group are both 2:
    the two normalised Series hold NaN at that feature, not a fallback
    number. *)
Lemma zero_spread_counterexample :
  let peers := filter (λ x, Position x = "Goalkeeper") (rows squad) in
  series_max (map (λ x, num x "Tackle Won") peers) = Fin 2
  ∧ series_min (map (λ x, num x "Tackle Won") peers) = Fin 2
  ∧ ∃ fig pd,
      player_radar_chart squad "Cai" ["Tackle Won"] (fresh_session squad)
      = (Ok (Some (fig, pd)), fresh_session squad)
      ∧ map r (data fig) = [[NaN]; [NaN]]
      ∧ Forall (λ x, is_finite x = false) (concat (map r (data fig))).
Proof.
  split; [reflexivity|]. split; [reflexivity|].
  eexists _, _. split; [vm_compute; reflexivity|].
  split; [reflexivity|]. repeat constructor.
Qed.

(** For a name that is in the dataset the comparison is a pure function:
    its outcome does not depend on the session and it leaves the session as
    it was. *)
Lemma player_radar_chart_pure (df : DataFrame) (player_name : string)
    (features : list string) :
  filter (λ x, Name x = player_name) (rows df) ≠ [] →
  ∃ outcome, ∀ w, player_radar_chart df player_name features w = (outcome, w).
Proof.
  intros Hfound. unfold player_radar_chart, mask. cbn [rows columns].
  rewrite decide_False by done.
  destruct (filter (λ x, Name x = player_name) (rows df)) as [|subject others];
    [done|].
  unfold getcols, iloc0, first, mbind, M_bind, mret, M_ret, raise.
  cbn [map rows columns].
  destruct (filter (λ c, c ∉ columns df) features) as [|c missing];
    [eexists; intros w; reflexivity|].
  destruct (decide (length (c :: missing) = length features));
    eexists; intros w; reflexivity.
Qed.

(** C8, as the code has it.  The comparison is a function of its three
    inputs: its outcome is the same in every session, and it never changes
    the dataset of the session.  For a name that is in the dataset it changes
    nothing at all; for a name that is not, it posts one error message to the
    page. *)
Theorem compare_deterministic_dataset_untouched (df : DataFrame)
    (player_name : string) (features : list string) (w w' : Session) :
  (player_radar_chart df player_name features w).1
  = (player_radar_chart df player_name features w').1
  ∧ dataset (player_radar_chart df player_name features w).2 = dataset w
  ∧ ((∃ x, x ∈ rows df ∧ Name x = player_name) →
     (player_radar_chart df player_name features w).2 = w)
  ∧ ((∀ x, x ∈ rows df → Name x ≠ player_name) →
     (player_radar_chart df player_name features w).2
     = {| dataset := dataset w;
          page := (page w
                   ++ [("Player '" ++ player_name
                        ++ "' not found in the dataset.")%string])%list |}).
Proof.
  destruct (decide (filter (λ x, Name x = player_name) (rows df) = [])) as [Hnone|Hsome].
  - assert (Habsent : ∀ x, x ∈ rows df → Name x ≠ player_name).
    { intros x Hx Hn.
      assert (Hin : x ∈ filter (λ x, Name x = player_name) (rows df))
        by (by apply list_elem_of_filter).
      rewrite Hnone in Hin. by apply elem_of_nil in Hin. }
    rewrite !(not_found_outcome df player_name features) by done.
    split; [done|]. split; [done|]. split; [|done].
    intros (x & Hx & Hn). by destruct (Habsent x Hx).
  - destruct (player_radar_chart_pure df player_name features Hsome) as [outcome Hrun].
    rewrite !Hrun. split; [done|]. split; [done|]. split; [done|].
    intros Habsent. exfalso. apply Hsome. by apply filter_absent.
Qed.

(** C8 fails as stated.  Asking for a player who is not in the squad leaves
    the session changed: the page holds one message more. *)
Lemma compare_side_effect_counterexample :
  (player_radar_chart squad "Zoe" ["Tackle Won"] (fresh_session squad)).2
  ≠ fresh_session squad
  ∧ page (player_radar_chart squad "Zoe" ["Tackle Won"] (fresh_session squad)).2
    = ["Player 'Zoe' not found in the dataset."].
Proof.
  split; [|reflexivity].
  intros Heq. apply (f_equal page) in Heq. discriminate Heq.
Qed.

Lemma compare_deterministic_dataset_untouched_witness :
  (player_radar_chart squad "Ana" stat_columns (fresh_session squad)).2
  = fresh_session squad
  ∧ (player_radar_chart squad "Zoe" stat_columns (fresh_session squad)).2
    = {| dataset := squad; page := ["Player 'Zoe' not found in the dataset."] |}.
Proof.
  split.
  - apply (proj1 (proj2 (proj2
             (compare_deterministic_dataset_untouched squad "Ana" stat_columns
                (fresh_session squad) (fresh_session squad))))).
    exists (row "Ana" "Defender" [("Interception", 4%Q); ("Tackle Won", 10%Q)]).
    split; [left|reflexivity].
  - apply (proj2 (proj2 (proj2
             (compare_deterministic_dataset_untouched squad "Zoe" stat_columns
                (fresh_session squad) (fresh_session squad))))).
    intros x Hx. apply list_elem_of_In in Hx. simpl in Hx.
    repeat (destruct Hx as [<-|Hx]; [discriminate|]). destruct Hx.
Defined.

(** ** Further properties of [predict_player_performance] *)

(** After eight successful loads the two dicts hold, for each position, what
    the store holds at its two paths: the call is the validation and routing
    below, started from the trace of the eight loads. *)
Lemma predict_loaded_eq (st : store) (player_data : gmap string value) :
  loads_ok st →
  predict_player_performance st player_data []
  = (p ← getitem player_data "Position";
     position ← str_lower p;
     if decide (position ∈ positions) then
       fs ← getitem features position;
       X ← for_each (getitem player_data) fs;
       scaler ← lift (from_option Ok (Raise (KeyError position))
                        (st (scaler_path position)));
       X_scaled ← call_transform position scaler [X];
       model ← lift (from_option Ok (Raise (KeyError position))
                       (st (model_path position)));
       prediction ← call_predict position model X_scaled;
       first prediction
     else
       mret "Invalid position") (map EvLoad artifact_paths).
Proof.
  intros Hok. after_loads st Hok ms ss Hin.
  generalize (map EvLoad artifact_paths). intros t0.
  munfold.
  destruct (player_data !! "Position") as [[q|s]|]; munfold; [done| |done].
  destruct (decide (lower s ∈ positions)) as [Hpos|Hpos]; munfold; [|done].
  destruct (Hin (lower s) Hpos) as [Hms Hss].
  destruct (features !! lower s) as [fs|]; munfold; [|done].
  match goal with
  | |- context [for_each ?f fs ?t] => destruct (for_each f fs t) as [[X|e] t1]
  end; munfold; [|done].
  rewrite Hss.
  destruct (st (scaler_path (lower s))) as [scaler|]; cbn [from_option]; munfold;
    [|done].
  destruct (transform scaler [X]) as [X_scaled|e]; munfold; [|done].
  rewrite Hms.
  destruct (st (model_path (lower s))) as [model|]; cbn [from_option]; munfold; done.
Qed.

(** X1.  Routing, for every position.  For a record whose Position
    lowercases to a known position and that holds every attribute of that
    position's feature list: once the eight loads have succeeded, the scaler
    of that position is called on the one row of these attributes in the
    order of the list, then the classifier of that position on the scaled
    row, and the first label is returned.  An exception of the scaler ends
    the call before the classifier is asked; an empty list of labels ends it
    in IndexError. *)
Theorem predict_routes_by_position (st : store) (player_data : gmap string value)
    (s : string) (fs : list string) (vs : list value) (scaler model : artifact) :
  player_data !! "Position" = Some (VStr s) →
  features !! lower s = Some fs →
  Forall2 (λ f v, player_data !! f = Some v) fs vs →
  loads_ok st →
  st (scaler_path (lower s)) = Some scaler →
  st (model_path (lower s)) = Some model →
  predict_player_performance st player_data []
  = match transform scaler [vs] with
    | Raise e =>
        (Raise e, (map EvLoad artifact_paths ++ [EvTransform (lower s) [vs]])%list)
    | Ok X_scaled =>
        (match predict model X_scaled with
         | Raise e => Raise e
         | Ok [] => Raise IndexError
         | Ok (label :: _) => Ok label
         end,
         (map EvLoad artifact_paths
          ++ [EvTransform (lower s) [vs]; EvPredict (lower s) X_scaled])%list)
    end.
Proof.
  intros Hpos Hfs Hvs Hok Hsc Hmo.
  pose proof (features_dom _ _ Hfs) as Hvalid.
  rewrite predict_loaded_eq by done.
  generalize (map EvLoad artifact_paths). intros t0.
  munfold. rewrite Hpos. munfold. rewrite decide_True by done.
  munfold. rewrite Hfs. munfold.
  rewrite (for_each_getitem_ok player_data fs vs _ Hvs). munfold.
  rewrite Hsc. cbn [from_option]. munfold.
  destruct (transform scaler [vs]) as [X_scaled|e]; munfold; [|done].
  rewrite Hmo. cbn [from_option]. munfold.
  destruct (predict model X_scaled) as [[|l ls]|e]; munfold; by rewrite <- app_assoc.
Qed.

Lemma predict_routes_by_position_witness :
  predict_player_performance store_refusing_striker (form_player_data striker_form) []
  = (Raise (ValueError "bad input"),
     (map EvLoad artifact_paths
      ++ [EvTransform "striker"
            [[VNum 31; VNum 17; VNum 3; VNum 22; VNum 40]]])%list).
Proof.
  apply (predict_routes_by_position store_refusing_striker
           (form_player_data striker_form) "Striker"
           ["Appearances"; "Goals"; "Interception"; "Key Passes"; "Shots on Target"]
           [VNum 31; VNum 17; VNum 3; VNum 22; VNum 40]
           refusing_artifact (sample_artifact "Good")).
  - reflexivity.
  - reflexivity.
  - repeat (apply Forall2_cons; split; [reflexivity|]). apply Forall2_nil. done.
  - intros path Hin. apply list_elem_of_In in Hin. simpl in Hin.
    repeat (destruct Hin as [<-|Hin]; [by eexists|]). destruct Hin.
  - reflexivity.
  - reflexivity.
Defined.

Lemma for_each_getitem_ext {S} (d d' : gmap string value) (fs : list string) (s : S) :
  (∀ f, f ∈ fs → d !! f = d' !! f) →
  for_each (getitem d) fs s = for_each (getitem d') fs s.
Proof.
  induction fs as [|f fs IH]; intros Hext; [done|].
  simpl. unfold mbind, M_bind. rewrite !getitem_eq.
  rewrite (Hext f) by left. destruct (d' !! f); [|done].
  rewrite IH; [done|]. intros g Hg. apply Hext. by right.
Qed.

Lemma for_each_getitem_raise {S} (d : gmap string value) (fs : list string)
    (s s' : S) (e : exn) :
  for_each (getitem d) fs s = (Raise e, s') →
  ∃ pre k post,
    fs = (pre ++ k :: post)%list ∧ Forall (λ f, is_Some (d !! f)) pre
    ∧ d !! k = None ∧ e = KeyError k.
Proof.
  revert s s'. induction fs as [|f fs IH]; intros s s' Hrun; [discriminate Hrun|].
  simpl in Hrun. unfold mbind, M_bind in Hrun. rewrite getitem_eq in Hrun.
  destruct (d !! f) as [v|] eqn:Hf.
  - destruct (for_each (getitem d) fs s) as [[ys|e'] s''] eqn:Hrest;
      [discriminate Hrun|].
    injection Hrun as -> ->.
    destruct (IH _ _ Hrest) as (pre & k & post & -> & Hpre & Hk & ->).
    exists (f :: pre), k, post. split; [done|]. split; [|done].
    apply Forall_cons. split; [by eexists|done].
  - injection Hrun as <- <-. exists [], f, fs. split; [done|].
    split; [apply Forall_nil; done|done].
Qed.

Lemma position_paths_loadable (st : store) (position : string) :
  loads_ok st → position ∈ positions →
  is_Some (st (scaler_path position)) ∧ is_Some (st (model_path position)).
Proof.
  intros Hok Hpos. apply list_elem_of_In in Hpos. simpl in Hpos.
  repeat (destruct Hpos as [<-|Hpos];
          [split; apply Hok; apply list_elem_of_In; simpl; tauto|]).
  destruct Hpos.
Qed.

(** X2.  The outcome and the trace depend on the record only through its
    lowercased Position and the attributes of that position's feature list:
    two records whose Positions are ASCII strings that agree up to casing,
    and that agree on these attributes, get the same result from the same
    store, whether or not the loads succeed and whatever else the records
    hold. *)
Theorem predict_depends_on_position_features (st : store)
    (player_data other : gmap string value) (s s' : string) :
  player_data !! "Position" = Some (VStr s) →
  other !! "Position" = Some (VStr s') →
  is_ascii s = true → is_ascii s' = true →
  lower s' = lower s →
  (∀ fs f, features !! lower s = Some fs → f ∈ fs →
           other !! f = player_data !! f) →
  predict_player_performance st other []
  = predict_player_performance st player_data [].
Proof.
  intros Hpos Hpos' _ _ Hlow Hagree.
  unfold predict_player_performance. munfold.
  destruct (load_artifacts st positions ∅ ∅ []) as [[[ms ss]|e] t]; munfold; [|done].
  rewrite Hpos, Hpos'. munfold. rewrite Hlow.
  destruct (decide (lower s ∈ positions)) as [Hvalid|Hvalid]; munfold; [|done].
  destruct (features !! lower s) as [fs|] eqn:Hfs; munfold; [|done].
  by rewrite (for_each_getitem_ext other player_data fs _ (λ f, Hagree fs f eq_refl)).
Qed.

Lemma predict_depends_on_position_features_witness :
  predict_player_performance store_all keeper' []
  = predict_player_performance store_all keeper []
  ∧ (predict_player_performance store_all keeper []).1 = Ok "Good".
Proof.
  split; [|vm_compute; reflexivity].
  apply (predict_depends_on_position_features store_all keeper keeper'
           "Goalkeeper" "GOALKEEPER").
  - reflexivity.
  - reflexivity.
  - reflexivity.
  - reflexivity.
  - reflexivity.
  - intros fs f [= <-] Hf. apply list_elem_of_In in Hf. simpl in Hf.
    repeat (destruct Hf as [<-|Hf]; [reflexivity|]). destruct Hf.
Defined.

(** X3.  A prediction uses the files of the record's own position only: for
    a record whose Position is an ASCII string, two stores in which all
    eight files load and that hold the same scaler and the same classifier
    for the record's position give the same result, whatever they hold for
    the other three positions. *)
Theorem predict_uses_own_artifacts_only (st st' : store)
    (player_data : gmap string value) (s : string) :
  player_data !! "Position" = Some (VStr s) →
  is_ascii s = true →
  loads_ok st → loads_ok st' →
  st (scaler_path (lower s)) = st' (scaler_path (lower s)) →
  st (model_path (lower s)) = st' (model_path (lower s)) →
  predict_player_performance st player_data []
  = predict_player_performance st' player_data [].
Proof.
  intros Hpos _ Hok Hok' Hsc Hmo.
  rewrite !predict_loaded_eq by done.
  generalize (map EvLoad artifact_paths). intros t0.
  munfold. rewrite Hpos. munfold. by rewrite Hsc, Hmo.
Qed.

Lemma store_other_gk_loads_ok : loads_ok store_other_gk.
Proof.
  intros path Hin. apply list_elem_of_In in Hin. simpl in Hin.
  repeat (destruct Hin as [<-|Hin]; [by eexists|]). destruct Hin.
Qed.

Lemma predict_uses_own_artifacts_only_witness :
  predict_player_performance store_all (form_player_data striker_form) []
  = predict_player_performance store_other_gk (form_player_data striker_form) [].
Proof.
  apply (predict_uses_own_artifacts_only store_all store_other_gk
           (form_player_data striker_form) "Striker").
  - reflexivity.
  - reflexivity.
  - exact store_all_loads_ok.
  - exact store_other_gk_loads_ok.
  - reflexivity.
  - reflexivity.
Defined.

(** X4.  A record with no usable Position.  Once the eight loads have
    succeeded, a record without the key "Position" ends the call in
    KeyError naming "Position", and a record whose Position is a number ends
    it in AttributeError for [lower]; no scaler and no classifier is
    called. *)
Theorem predict_without_position_string (st : store)
    (player_data : gmap string value) :
  loads_ok st →
  (player_data !! "Position" = None →
   predict_player_performance st player_data []
   = (Raise (KeyError "Position"), map EvLoad artifact_paths))
  ∧ (∀ q, player_data !! "Position" = Some (VNum q) →
     predict_player_performance st player_data []
     = (Raise (AttributeError "lower"), map EvLoad artifact_paths)).
Proof.
  intros Hok. split.
  - intros Hnone. rewrite predict_loaded_eq by done. munfold. by rewrite Hnone.
  - intros q Hnum. rewrite predict_loaded_eq by done. munfold. by rewrite Hnum.
Qed.

Lemma predict_without_position_string_witness :
  predict_player_performance store_all (delete "Position" keeper) []
  = (Raise (KeyError "Position"), map EvLoad artifact_paths)
  ∧ predict_player_performance store_all (<["Position" := VNum 1]> keeper) []
    = (Raise (AttributeError "lower"), map EvLoad artifact_paths).
Proof.
  split.
  - apply (proj1 (predict_without_position_string store_all (delete "Position" keeper)
                    store_all_loads_ok)).
    reflexivity.
  - apply (proj2 (predict_without_position_string store_all
                    (<["Position" := VNum 1]> keeper) store_all_loads_ok) 1%Q).
    reflexivity.
Defined.

(** X5.  Where a KeyError can come from.  Once the eight loads have
    succeeded, a KeyError that ends the call before any scaler is called
    names a key that the record lacks: either "Position", or the first
    attribute, in the order of the position's feature list, that the record
    does not hold.  The lookups in the routing table and in the two dicts of
    loaded objects never fail. *)
Theorem predict_KeyError_names_missing_input (st : store)
    (player_data : gmap string value) (k : string) :
  loads_ok st →
  (predict_player_performance st player_data []).1 = Raise (KeyError k) →
  (∀ position X,
     EvTransform position X ∉ (predict_player_performance st player_data []).2) →
  player_data !! k = None
  ∧ (k = "Position"
     ∨ ∃ s pre post,
         player_data !! "Position" = Some (VStr s)
         ∧ features !! lower s = Some (pre ++ k :: post)%list
         ∧ Forall (λ f, is_Some (player_data !! f)) pre).
Proof.
  intros Hok. rewrite predict_loaded_eq by done.
  generalize (map EvLoad artifact_paths). intros t0. munfold.
  destruct (player_data !! "Position") as [[q|s]|] eqn:Hpos; munfold; cbn [fst snd].
  - discriminate.
  - destruct (decide (lower s ∈ positions)) as [Hvalid|Hvalid]; munfold;
      [|discriminate].
    destruct (position_paths_loadable st (lower s) Hok Hvalid)
      as [[scaler Hsc] [model Hmo]].
    destruct (features !! lower s) as [fs|] eqn:Hfs; munfold.
    + match goal with
      | |- context [for_each ?f fs ?t] =>
          destruct (for_each f fs t) as [[X|e] t1] eqn:Hrun
      end; munfold; cbn [fst snd].
      * rewrite Hsc, Hmo. cbn [from_option]. munfold.
        intros _ Hno. exfalso.
        destruct (transform scaler [X]) as [X_scaled|e]; munfold; cbn [snd] in Hno.
        -- apply (Hno (lower s) [X]).
           destruct (predict model X_scaled) as [[|l ls]|e]; cbn [snd];
             rewrite <- app_assoc; apply elem_of_app; right; left.
        -- apply (Hno (lower s) [X]). apply elem_of_app. right. left.
      * intros [= ->] _.
        destruct (for_each_getitem_raise _ _ _ _ _ Hrun)
          as (pre & k' & post & -> & Hpre & Hk & [= <-]).
        split; [done|]. right. by exists s, pre, post.
    + exfalso. apply list_elem_of_In in Hvalid. simpl in Hvalid.
      repeat (destruct Hvalid as [Hv|Hvalid]; [rewrite <- Hv in Hfs; discriminate Hfs|]).
      destruct Hvalid.
  - intros [= <-] _. split; [done|by left].
Qed.

Lemma predict_KeyError_names_missing_input_witness :
  midfielder_no_tackle_won !! "Tackle Won" = None
  ∧ ("Tackle Won" = "Position"
     ∨ ∃ s pre post,
         midfielder_no_tackle_won !! "Position" = Some (VStr s)
         ∧ features !! lower s = Some (pre ++ "Tackle Won" :: post)%list
         ∧ Forall (λ f, is_Some (midfielder_no_tackle_won !! f)) pre).
Proof.
  apply (predict_KeyError_names_missing_input store_all midfielder_no_tackle_won
           "Tackle Won").
  - exact store_all_loads_ok.
  - vm_compute. reflexivity.
  - intros position X Hin. apply list_elem_of_In in Hin. vm_compute in Hin.
    repeat (destruct Hin as [Hin|Hin]; [discriminate Hin|]). destruct Hin.
Defined.

(** The loop stops at the first file that cannot be loaded: every file
    before it was loaded. *)
Lemma load_artifacts_first_failure (st : store) (ps : list string) :
  ∀ (models scalers : gmap string artifact) (t : trace),
    Exists (λ p, st (model_path p) = None ∨ st (scaler_path p) = None) ps →
    ∃ q k,
      load_artifacts st ps models scalers t
      = (Raise (LoadFailure q),
         (t ++ map EvLoad
                 (take (S k) (concat (map (λ p, [model_path p; scaler_path p]) ps))))%list)
      ∧ concat (map (λ p, [model_path p; scaler_path p]) ps) !! k = Some q
      ∧ st q = None
      ∧ ∀ j path, (j < k)%nat →
          concat (map (λ p, [model_path p; scaler_path p]) ps) !! j = Some path →
          is_Some (st path).
Proof.
  induction ps as [|p ps IH]; intros models scalers t Hex.
  - by apply Exists_nil in Hex.
  - simpl. munfold.
    destruct (st (model_path p)) as [m|] eqn:Hm.
    + destruct (st (scaler_path p)) as [s|] eqn:Hs.
      * apply Exists_cons in Hex as [[Hx|Hx]|Hex]; [congruence|congruence|].
        destruct (IH (<[p:=m]> models) (<[p:=s]> scalers)
                    ((t ++ [EvLoad (model_path p)]) ++ [EvLoad (scaler_path p)])%list Hex)
          as (q & k & Heq & Hk & Hq & Hbefore).
        exists q, (S (S k)). rewrite Heq. split; [|split; [done|split; [done|]]].
        -- f_equal. rewrite <- !app_assoc. done.
        -- intros [|[|j]] path Hj Hpath; simpl in Hpath.
           ++ injection Hpath as <-. by eexists.
           ++ injection Hpath as <-. by eexists.
           ++ apply (Hbefore j path); [lia|done].
      * exists (scaler_path p), 1%nat. split; [|split; [done|split; [done|]]].
        -- f_equal. rewrite <- !app_assoc. simpl. by rewrite ?take_0.
        -- intros [|j] path Hj Hpath; [|lia]. simpl in Hpath.
           injection Hpath as <-. by eexists.
    + exists (model_path p), 0%nat. split; [|split; [done|split; [done|]]].
      * simpl. by rewrite ?take_0.
      * intros j path Hj. lia.
Qed.

(** X6.  The shape of every trace.  Either all eight files load: then the
    trace is the eight loads in their fixed order, followed by nothing, or by
    one call of the scaler of a known position on a single row, or by that
    call and one call of the classifier of the same position.  Or some file
    does not load: then the call ends in the load failure of the first such
    file in that order, and the trace is the loads up to and including it. *)
Theorem predict_trace_discipline (st : store) (player_data : gmap string value) :
  (loads_ok st
   ∧ ∃ rest,
       (predict_player_performance st player_data []).2
       = (map EvLoad artifact_paths ++ rest)%list
       ∧ (rest = []
          ∨ ∃ position row,
              position ∈ positions
              ∧ (rest = [EvTransform position [row]]
                 ∨ ∃ X_scaled,
                     rest = [EvTransform position [row];
                             EvPredict position X_scaled])))
  ∨ (∃ k q,
       artifact_paths !! k = Some q
       ∧ st q = None
       ∧ (∀ j path, (j < k)%nat → artifact_paths !! j = Some path → is_Some (st path))
       ∧ predict_player_performance st player_data []
         = (Raise (LoadFailure q), map EvLoad (take (S k) artifact_paths))).
Proof.
  destruct (decide (Forall (λ path, is_Some (st path)) artifact_paths)) as [Hall|Hnot].
  - left.
    assert (Hok : loads_ok st)
      by (intros path Hin; exact (proj1 (Forall_forall _ _) Hall path Hin)).
    split; [done|]. rewrite predict_loaded_eq by done.
    generalize (map EvLoad artifact_paths). intros t0. munfold.
    destruct (player_data !! "Position") as [[q|s]|]; munfold; cbn [snd];
      try (exists []; rewrite app_nil_r; split; [done|by left]).
    destruct (decide (lower s ∈ positions)) as [Hvalid|Hvalid]; munfold; cbn [snd];
      [|exists []; rewrite app_nil_r; split; [done|by left]].
    destruct (features !! lower s) as [fs|]; munfold; cbn [snd];
      [|exists []; rewrite app_nil_r; split; [done|by left]].
    match goal with
    | |- context [for_each ?f fs ?t] =>
        assert (Hst : (for_each f fs t).2 = t) by apply for_each_getitem_state;
        destruct (for_each f fs t) as [[X|e] t1]
    end; simpl in Hst; subst t1; munfold; cbn [snd];
      [|exists []; rewrite app_nil_r; split; [done|by left]].
    destruct (st (scaler_path (lower s))) as [scaler|]; cbn [from_option]; munfold;
      cbn [snd]; [|exists []; rewrite app_nil_r; split; [done|by left]].
    destruct (transform scaler [X]) as [X_scaled|e]; munfold; cbn [snd];
      [|exists [EvTransform (lower s) [X]]; split; [done|];
        right; exists (lower s), X; split; [done|by left]].
    destruct (st (model_path (lower s))) as [model|]; cbn [from_option]; munfold;
      cbn [snd];
      [|exists [EvTransform (lower s) [X]]; split; [done|];
        right; exists (lower s), X; split; [done|by left]].
    exists [EvTransform (lower s) [X]; EvPredict (lower s) X_scaled]. split.
    + destruct (predict model X_scaled) as [[|l ls]|e]; cbn [snd];
        by rewrite <- app_assoc.
    + right. exists (lower s), X. split; [done|]. right. by exists X_scaled.
  - right.
    apply not_Forall_Exists in Hnot; [|intros path; apply _].
    apply Exists_exists in Hnot as (path & Hin & Hnone).
    assert (Hpath : st path = None).
    { destruct (st path) as [a|] eqn:Hpath; [|done].
      exfalso. apply Hnone. simpl. rewrite Hpath. by eexists. }
    destruct (load_artifacts_first_failure st positions ∅ ∅ []
                (not_loads_ok_Exists st path Hin Hpath))
      as (q & k & Heq & Hk & Hq & Hbefore).
    exists k, q. split; [done|]. split; [done|]. split; [done|].
    unfold predict_player_performance. unfold mbind at 1, M_bind at 1.
    by rewrite Heq.
Qed.

(** X7.  From the form to the scaler.  Each position that the Predict page
    offers lowercases to a known position, and the dict that the page builds
    holds every attribute of that position's feature list: once the eight
    loads have succeeded, a prediction started from the form is never turned
    away as an invalid position nor ended by a missing attribute, it always
    calls the scaler, on the row of the form's own numbers. *)
Theorem form_prediction_reaches_scaler (st : store) (f : Form.inputs) :
  Form.position f ∈ position_options →
  loads_ok st →
  ∃ fs vs,
    features !! lower (Form.position f) = Some fs
    ∧ Forall2 (λ k v, form_player_data f !! k = Some v) fs vs
    ∧ EvTransform (lower (Form.position f)) [vs]
      ∈ (predict_player_performance st (form_player_data f) []).2.
Proof.
  intros Hopt Hok.
  assert (Hfeat : ∃ fs vs,
    features !! lower (Form.position f) = Some fs
    ∧ Forall2 (λ k v, form_player_data f !! k = Some v) fs vs).
  { destruct f as [nm ag pos ap go asst cl na di ic kp pa pc ta tw so co sh].
    cbn [Form.position] in *.
    apply list_elem_of_In in Hopt. simpl in Hopt.
    repeat (destruct Hopt as [<-|Hopt];
            [eexists _, _; split; [reflexivity|];
             repeat (apply Forall2_cons; split; [reflexivity|]);
             apply Forall2_nil; done|]).
    destruct Hopt. }
  destruct Hfeat as (fs & vs & Hfs & Hvs).
  exists fs, vs. split; [done|]. split; [done|].
  destruct (position_paths_loadable st (lower (Form.position f)) Hok
              (features_dom _ _ Hfs)) as [[scaler Hsc] [model Hmo]].
  assert (Hpos : form_player_data f !! "Position" = Some (VStr (Form.position f)))
    by reflexivity.
  rewrite predict_loaded_eq by done.
  generalize (map EvLoad artifact_paths). intros t0.
  munfold. rewrite Hpos. munfold.
  rewrite decide_True by (by eapply features_dom).
  munfold. rewrite Hfs. munfold.
  rewrite (for_each_getitem_ok (form_player_data f) fs vs _ Hvs). munfold.
  rewrite Hsc. cbn [from_option]. munfold.
  destruct (transform scaler [vs]) as [X_scaled|e]; munfold; cbn [snd];
    [|apply elem_of_app; right; left].
  rewrite Hmo. cbn [from_option]. munfold.
  destruct (predict model X_scaled) as [[|l ls]|e]; cbn [snd];
    rewrite <- app_assoc; apply elem_of_app; right; left.
Qed.

Lemma form_prediction_reaches_scaler_witness :
  ∃ fs vs,
    features !! lower (Form.position striker_form) = Some fs
    ∧ Forall2 (λ k v, form_player_data striker_form !! k = Some v) fs vs
    ∧ EvTransform (lower (Form.position striker_form)) [vs]
      ∈ (predict_player_performance store_all (form_player_data striker_form) []).2.
Proof.
  apply (form_prediction_reaches_scaler store_all striker_form).
  - apply list_elem_of_In. simpl. tauto.
  - exact store_all_loads_ok.
Defined.

(** ** Further properties of [player_radar_chart] *)

Lemma elem_of_unique (l : list string) (x : string) : x ∈ unique l ↔ x ∈ l.
Proof.
  induction l as [|a l IH]; [done|].
  simpl. rewrite !elem_of_cons, list_elem_of_filter, IH.
  destruct (decide (x = a)) as [Heq|Hne]; tauto.
Qed.

(** A name that some row carries splits the rows at its first occurrence. *)
Lemma first_match_split (l : list PlayerRecord) (player_name : string) :
  player_name ∈ map Name l →
  ∃ pre subject post,
    l = (pre ++ subject :: post)%list
    ∧ Forall (λ x, Name x ≠ player_name) pre
    ∧ Name subject = player_name.
Proof.
  induction l as [|x l IH]; intros Hin.
  - by apply elem_of_nil in Hin.
  - destruct (decide (Name x = player_name)) as [Hx|Hx].
    + exists [], x, l. split; [done|]. split; [apply Forall_nil; done|done].
    + simpl in Hin. apply elem_of_cons in Hin as [Hin|Hin]; [by subst|].
      destruct (IH Hin) as (pre & subject & post & -> & Hpre & Hs).
      exists (x :: pre), subject, post. split; [done|]. split; [|done].
      by apply Forall_cons.
Qed.

(** X8.  A name taken from the list that the Player Analysis page offers is
    always found: for such a name and features that are columns, the
    comparison returns a figure and a frame, never [None], and posts
    nothing. *)
Theorem offered_name_is_found (df : DataFrame) (player_name : string)
    (features : list string) (w : Session) :
  player_name ∈ name_options df →
  Forall (λ c, c ∈ columns df) features →
  ∃ fig pd subject,
    player_radar_chart df player_name features w = (Ok (Some (fig, pd)), w)
    ∧ rows pd !! 0%nat = Some subject
    ∧ Name subject = player_name.
Proof.
  intros Hopt Hcols. unfold name_options in Hopt.
  apply (proj1 (elem_of_unique _ _)) in Hopt.
  destruct (first_match_split (rows df) player_name Hopt)
    as (pre & subject & post & Hrows & Hpre & Hname).
  destruct (radar_entries df player_name features w subject pre post
              Hrows Hpre Hname Hcols) as (fig & pd & avg & player & Hrun & _ & Hpd & _).
  exists fig, pd, subject. by rewrite Hpd.
Qed.

Lemma offered_name_is_found_witness :
  ∃ fig pd subject,
    player_radar_chart namesakes "Sam" stat_columns (fresh_session namesakes)
    = (Ok (Some (fig, pd)), fresh_session namesakes)
    ∧ rows pd !! 0%nat = Some subject
    ∧ Name subject = "Sam".
Proof.
  apply (offered_name_is_found namesakes "Sam" stat_columns (fresh_session namesakes)).
  - apply list_elem_of_In. vm_compute. tauto.
  - exact stat_columns_present.
Defined.

(** X10.  The shape of the chart.  For a player who is in the dataset and
    features that are columns, the figure holds two traces, "Average Player"
    first and the player's own second; both have the requested features as
    their axis labels and one entry per feature, and the radial axis is fixed
    to the range from 0 to 1. *)
Theorem chart_is_aligned_with_features (df : DataFrame) (player_name : string)
    (features : list string) (w : Session) :
  player_name ∈ map Name (rows df) →
  Forall (λ c, c ∈ columns df) features →
  ∃ fig pd avg player,
    player_radar_chart df player_name features w = (Ok (Some (fig, pd)), w)
    ∧ data fig = [avg; player]
    ∧ name avg = "Average Player" ∧ name player = player_name
    ∧ theta avg = features ∧ theta player = features
    ∧ length (r avg) = length features ∧ length (r player) = length features
    ∧ radialaxis_range fig = (0%Q, 1%Q).
Proof.
  intros Hin Hcols.
  destruct (first_match_split (rows df) player_name Hin)
    as (pre & subject & post & Hrows & Hpre & Hname).
  pose proof (player_radar_chart_found df player_name features w subject pre post
                Hrows Hpre Hname Hcols) as Hfound.
  cbv zeta in Hfound.
  eexists _, _, _, _. split; [exact Hfound|]. cbn [data name theta r radialaxis_range].
  repeat (split; [reflexivity|]). cbn [r].
  unfold series_div, series_sub, frame_mean, frame_min, frame_max. cbn [columns].
  rewrite !length_zip_with, !length_map.
  repeat split; try reflexivity; lia.
Qed.

Lemma chart_is_aligned_with_features_witness :
  ∃ fig pd avg player,
    player_radar_chart squad "Cai" stat_columns (fresh_session squad)
    = (Ok (Some (fig, pd)), fresh_session squad)
    ∧ data fig = [avg; player]
    ∧ name avg = "Average Player" ∧ name player = "Cai"
    ∧ theta avg = stat_columns ∧ theta player = stat_columns
    ∧ length (r avg) = length stat_columns ∧ length (r player) = length stat_columns
    ∧ radialaxis_range fig = (0%Q, 1%Q).
Proof.
  apply (chart_is_aligned_with_features squad "Cai" stat_columns (fresh_session squad)).
  - apply list_elem_of_In. simpl. tauto.
  - exact stat_columns_present.
Defined.

(** X11.  The returned frame.  For a player who is in the dataset and
    features that are columns, the frame that comes back with the figure has
    the columns of the dataset and, in dataset order, exactly the rows that
    carry the requested name. *)
Theorem returned_frame_is_the_named_rows (df : DataFrame) (player_name : string)
    (features : list string) (w : Session) :
  player_name ∈ map Name (rows df) →
  Forall (λ c, c ∈ columns df) features →
  ∃ fig pd,
    player_radar_chart df player_name features w = (Ok (Some (fig, pd)), w)
    ∧ columns pd = columns df
    ∧ rows pd = filter (λ x, Name x = player_name) (rows df)
    ∧ ∀ x, x ∈ rows pd ↔ x ∈ rows df ∧ Name x = player_name.
Proof.
  intros Hin Hcols.
  destruct (first_match_split (rows df) player_name Hin)
    as (pre & subject & post & Hrows & Hpre & Hname).
  pose proof (player_radar_chart_found df player_name features w subject pre post
                Hrows Hpre Hname Hcols) as Hfound.
  cbv zeta in Hfound.
  eexists _, _. split; [exact Hfound|]. cbn [columns rows].
  assert (Hfilter : filter (λ x, Name x = player_name) (rows df)
                    = subject :: filter (λ x, Name x = player_name) post).
  { rewrite Hrows. by apply filter_first_match. }
  split; [done|]. split; [done|].
  intros x. rewrite <- Hfilter, list_elem_of_filter. tauto.
Qed.

Lemma returned_frame_is_the_named_rows_witness :
  ∃ fig pd,
    player_radar_chart namesakes "Sam" stat_columns (fresh_session namesakes)
    = (Ok (Some (fig, pd)), fresh_session namesakes)
    ∧ columns pd = columns namesakes
    ∧ rows pd = filter (λ x, Name x = "Sam") (rows namesakes)
    ∧ ∀ x, x ∈ rows pd ↔ x ∈ rows namesakes ∧ Name x = "Sam".
Proof.
  apply (returned_frame_is_the_named_rows namesakes "Sam" stat_columns
           (fresh_session namesakes)).
  - apply list_elem_of_In. simpl. tauto.
  - exact stat_columns_present.
Defined.

(** X13.  A player alone in a position.  When the subject's row is the only
    row of its position, every entry of both Series is NaN, for every
    requested feature. *)
Theorem lone_player_chart_is_all_NaN (df : DataFrame) (player_name : string)
    (features : list string) (w : Session)
    (subject : PlayerRecord) (pre post : list PlayerRecord) :
  rows df = (pre ++ subject :: post)%list →
  Forall (λ x, Name x ≠ player_name) pre →
  Name subject = player_name →
  Forall (λ c, c ∈ columns df) features →
  filter (λ x, Position x = Position subject) (rows df) = [subject] →
  ∃ fig pd avg player,
    player_radar_chart df player_name features w = (Ok (Some (fig, pd)), w)
    ∧ data fig = [avg; player]
    ∧ r avg = replicate (length features) NaN
    ∧ r player = replicate (length features) NaN.
Proof.
  intros Hrows Hpre Hname Hcols Halone.
  destruct (radar_entries df player_name features w subject pre post
              Hrows Hpre Hname Hcols) as (fig & pd & avg & player & Hrun & Hdata & _ & Hent).
  exists fig, pd, avg, player. split; [done|]. split; [done|].
  assert (Hlen : length (r avg) = length features ∧ length (r player) = length features).
  { pose proof (player_radar_chart_found df player_name features w subject pre post
                  Hrows Hpre Hname Hcols) as Hfound.
    cbv zeta in Hfound. rewrite Hfound in Hrun.
    injection Hrun as <- _. cbn [data] in Hdata. injection Hdata as <- <-. cbn [r].
    unfold series_div, series_sub, frame_mean, frame_min, frame_max. cbn [columns].
    rewrite !length_zip_with, !length_map. lia. }
  destruct Hlen as [Hla Hlp].
  assert (Hnan : ∀ i f, features !! i = Some f →
                        r avg !! i = Some NaN ∧ r player !! i = Some NaN).
  { intros i f Hf. destruct (Hent i f Hf) as [Havg Hplayer].
    rewrite Halone in Havg, Hplayer. cbn [map series_min series_max foldl] in *.
    assert (Hb : (num subject f <= num subject f <= num subject f)%Q)
      by (split; apply Qle_refl).
    rewrite (normalise_flat (num subject f) _ _ Hb (Qeq_refl _)) in Hplayer.
    split; [|done]. rewrite Havg. f_equal. cbn [series_mean].
    apply normalise_flat; [|apply Qeq_refl].
    unfold Qsum. cbn [foldr length]. split.
    - apply Qle_shift_div_l; [reflexivity|]. change (inject_Z (Z.of_nat 1)) with 1%Q. lra.
    - apply Qle_shift_div_r; [reflexivity|]. change (inject_Z (Z.of_nat 1)) with 1%Q. lra. }
  split.
  - apply list_eq. intros i. destruct (features !! i) as [f|] eqn:Hf.
    + rewrite (proj1 (Hnan i f Hf)). symmetry. apply lookup_replicate_2.
      by apply lookup_lt_Some in Hf.
    + apply lookup_ge_None in Hf. rewrite !(proj2 (lookup_ge_None _ _)); [done|..].
      * by rewrite length_replicate.
      * by rewrite Hla.
  - apply list_eq. intros i. destruct (features !! i) as [f|] eqn:Hf.
    + rewrite (proj2 (Hnan i f Hf)). symmetry. apply lookup_replicate_2.
      by apply lookup_lt_Some in Hf.
    + apply lookup_ge_None in Hf. rewrite !(proj2 (lookup_ge_None _ _)); [done|..].
      * by rewrite length_replicate.
      * by rewrite Hlp.
Qed.

Lemma lone_player_chart_is_all_NaN_witness :
  ∃ fig pd avg player,
    player_radar_chart squad "Cai" stat_columns (fresh_session squad)
    = (Ok (Some (fig, pd)), fresh_session squad)
    ∧ data fig = [avg; player]
    ∧ r avg = replicate (length stat_columns) NaN
    ∧ r player = replicate (length stat_columns) NaN.
Proof.
  apply (lone_player_chart_is_all_NaN squad "Cai" stat_columns (fresh_session squad)
           (row "Cai" "Goalkeeper" [("Interception", 1%Q); ("Tackle Won", 2%Q)])
           [row "Ana" "Defender" [("Interception", 4%Q); ("Tackle Won", 10%Q)];
            row "Bea" "Defender" [("Interception", 4%Q); ("Tackle Won", 20%Q)]]
           []).
  - reflexivity.
  - repeat (apply Forall_cons; split; [discriminate|]). apply Forall_nil. done.
  - reflexivity.
  - exact stat_columns_present.
  - reflexivity.
Defined.

(** X14.  The lower end of the scale.  For a feature whose maximum over the
    peer group exceeds its minimum, a subject whose cell is the minimum gets
    the entry 0. *)
Theorem minimum_maps_to_zero (df : DataFrame) (player_name : string)
    (features : list string) (w : Session)
    (subject : PlayerRecord) (pre post : list PlayerRecord)
    (i : nat) (f : string) (m M : Q) :
  rows df = (pre ++ subject :: post)%list →
  Forall (λ x, Name x ≠ player_name) pre →
  Name subject = player_name →
  Forall (λ c, c ∈ columns df) features →
  features !! i = Some f →
  let peers := filter (λ x, Position x = Position subject) (rows df) in
  series_min (map (λ x, num x f) peers) = Fin m →
  series_max (map (λ x, num x f) peers) = Fin M →
  (m < M)%Q →
  (num subject f == m)%Q →
  ∃ fig pd avg player p,
    player_radar_chart df player_name features w = (Ok (Some (fig, pd)), w)
    ∧ data fig = [avg; player]
    ∧ r player !! i = Some (Fin p)
    ∧ (p == 0)%Q.
Proof.
  intros Hrows Hpre Hname Hcols Hf peers Hm HM Hlt Hmin.
  destruct (radar_entries df player_name features w subject pre post
              Hrows Hpre Hname Hcols) as (fig & pd & avg & player & Hrun & Hdata & _ & Hent).
  destruct (Hent i f Hf) as [_ Hplayer]. fold peers in Hplayer.
  rewrite Hm, HM in Hplayer.
  exists fig, pd, avg, player, ((num subject f - m) / (M - m))%Q.
  split; [done|]. split; [done|]. split.
  - rewrite Hplayer. f_equal. simpl.
    destruct (Qeq_bool (M - m) 0) eqn:Hz; [|done].
    apply Qeq_bool_iff in Hz. lra.
  - assert (Hnum : (num subject f - m == 0)%Q) by lra.
    rewrite Hnum. unfold Qdiv. lra.
Qed.

Lemma minimum_maps_to_zero_witness :
  ∃ fig pd avg player p,
    player_radar_chart squad "Ana" stat_columns (fresh_session squad)
    = (Ok (Some (fig, pd)), fresh_session squad)
    ∧ data fig = [avg; player]
    ∧ r player !! 1%nat = Some (Fin p)
    ∧ (p == 0)%Q.
Proof.
  apply (minimum_maps_to_zero squad "Ana" stat_columns (fresh_session squad)
           (row "Ana" "Defender" [("Interception", 4%Q); ("Tackle Won", 10%Q)])
           []
           [row "Bea" "Defender" [("Interception", 4%Q); ("Tackle Won", 20%Q)];
            row "Cai" "Goalkeeper" [("Interception", 1%Q); ("Tackle Won", 2%Q)]]
           1%nat "Tackle Won" 10%Q 20%Q).
  - reflexivity.
  - apply Forall_nil. done.
  - reflexivity.
  - exact stat_columns_present.
  - reflexivity.
  - reflexivity.
  - reflexivity.
  - reflexivity.
  - reflexivity.
Defined.

(** X15.  Players of other positions do not count.  Two datasets in which
    the subject is the first row of the requested name and in which the rows
    of the subject's position are the same, in the same order, give the same
    figure, whatever rows of other positions they hold. *)
Theorem other_positions_do_not_matter (df df' : DataFrame) (player_name : string)
    (features : list string) (w : Session)
    (subject : PlayerRecord) (pre post pre' post' : list PlayerRecord) :
  rows df = (pre ++ subject :: post)%list →
  Forall (λ x, Name x ≠ player_name) pre →
  rows df' = (pre' ++ subject :: post')%list →
  Forall (λ x, Name x ≠ player_name) pre' →
  Name subject = player_name →
  Forall (λ c, c ∈ columns df) features →
  Forall (λ c, c ∈ columns df') features →
  filter (λ x, Position x = Position subject) (rows df')
  = filter (λ x, Position x = Position subject) (rows df) →
  ∃ fig pd pd',
    player_radar_chart df player_name features w = (Ok (Some (fig, pd)), w)
    ∧ player_radar_chart df' player_name features w = (Ok (Some (fig, pd')), w).
Proof.
  intros Hrows Hpre Hrows' Hpre' Hname Hcols Hcols' Hsame.
  pose proof (player_radar_chart_found df player_name features w subject pre post
                Hrows Hpre Hname Hcols) as Hfound.
  pose proof (player_radar_chart_found df' player_name features w subject pre' post'
                Hrows' Hpre' Hname Hcols') as Hfound'.
  cbv zeta in Hfound, Hfound'. rewrite Hsame in Hfound'.
  eexists _, _, _. split; [exact Hfound|exact Hfound'].
Qed.

Lemma other_positions_do_not_matter_witness :
  ∃ fig pd pd',
    player_radar_chart namesakes "Bea" stat_columns (fresh_session namesakes)
    = (Ok (Some (fig, pd)), fresh_session namesakes)
    ∧ player_radar_chart
        {| columns := stat_columns; rows := [sam_midfielder; bea] |}
        "Bea" stat_columns (fresh_session namesakes)
      = (Ok (Some (fig, pd')), fresh_session namesakes).
Proof.
  apply (other_positions_do_not_matter namesakes
           {| columns := stat_columns; rows := [sam_midfielder; bea] |}
           "Bea" stat_columns (fresh_session namesakes) bea
           [ana; sam_midfielder] [sam_defender; dov] [sam_midfielder] []).
  - reflexivity.
  - repeat (apply Forall_cons; split; [discriminate|]). apply Forall_nil. done.
  - reflexivity.
  - repeat (apply Forall_cons; split; [discriminate|]). apply Forall_nil. done.
  - reflexivity.
  - exact stat_columns_present.
  - exact stat_columns_present.
  - reflexivity.
Defined.

(** X16.  One average per position.  Two players of the same dataset whose
    first rows have the same Position get the same "Average Player" trace:
    the average depends on the position, not on the player asked for. *)
Theorem average_trace_depends_on_position_only (df : DataFrame)
    (name1 name2 : string) (features : list string) (w : Session)
    (subject1 subject2 : PlayerRecord) (pre1 post1 pre2 post2 : list PlayerRecord) :
  rows df = (pre1 ++ subject1 :: post1)%list →
  Forall (λ x, Name x ≠ name1) pre1 →
  Name subject1 = name1 →
  rows df = (pre2 ++ subject2 :: post2)%list →
  Forall (λ x, Name x ≠ name2) pre2 →
  Name subject2 = name2 →
  Position subject1 = Position subject2 →
  Forall (λ c, c ∈ columns df) features →
  ∃ fig1 pd1 fig2 pd2 avg player1 player2,
    player_radar_chart df name1 features w = (Ok (Some (fig1, pd1)), w)
    ∧ player_radar_chart df name2 features w = (Ok (Some (fig2, pd2)), w)
    ∧ data fig1 = [avg; player1]
    ∧ data fig2 = [avg; player2].
Proof.
  intros Hrows1 Hpre1 Hname1 Hrows2 Hpre2 Hname2 Hpos Hcols.
  pose proof (player_radar_chart_found df name1 features w subject1 pre1 post1
                Hrows1 Hpre1 Hname1 Hcols) as Hfound1.
  pose proof (player_radar_chart_found df name2 features w subject2 pre2 post2
                Hrows2 Hpre2 Hname2 Hcols) as Hfound2.
  cbv zeta in Hfound1, Hfound2. rewrite Hpos in Hfound1.
  eexists _, _, _, _, _, _, _.
  split; [exact Hfound1|]. split; [exact Hfound2|]. split; reflexivity.
Qed.

Lemma average_trace_depends_on_position_only_witness :
  ∃ fig1 pd1 fig2 pd2 avg player1 player2,
    player_radar_chart squad "Ana" stat_columns (fresh_session squad)
    = (Ok (Some (fig1, pd1)), fresh_session squad)
    ∧ player_radar_chart squad "Bea" stat_columns (fresh_session squad)
      = (Ok (Some (fig2, pd2)), fresh_session squad)
    ∧ data fig1 = [avg; player1]
    ∧ data fig2 = [avg; player2].
Proof.
  apply (average_trace_depends_on_position_only squad "Ana" "Bea" stat_columns
           (fresh_session squad)
           (row "Ana" "Defender" [("Interception", 4%Q); ("Tackle Won", 10%Q)])
           (row "Bea" "Defender" [("Interception", 4%Q); ("Tackle Won", 20%Q)])
           []
           [row "Bea" "Defender" [("Interception", 4%Q); ("Tackle Won", 20%Q)];
            row "Cai" "Goalkeeper" [("Interception", 1%Q); ("Tackle Won", 2%Q)]]
           [row "Ana" "Defender" [("Interception", 4%Q); ("Tackle Won", 10%Q)]]
           [row "Cai" "Goalkeeper" [("Interception", 1%Q); ("Tackle Won", 2%Q)]]).
  - reflexivity.
  - apply Forall_nil. done.
  - reflexivity.
  - reflexivity.
  - apply Forall_cons. split; [discriminate|]. apply Forall_nil. done.
  - reflexivity.
  - reflexivity.
  - exact stat_columns_present.
Defined.
